(** * pi-camera.py: capture loop, metadata ledger and disk guard

    A shallow embedding of [src/pi-camera.py].  The script is a straight-line
    bootstrap followed by [while True:]; every statement acts on the outside
    world (clock, camera, file system, git, disk statistics).  The embedding
    threads an explicit [World] through a small state-and-exception monad and
    lets an [Env] record answer every question the script asks the outside. *)

From Stdlib Require Import ZArith Floats Uint63 Lia Ascii String.
From stdpp Require Import base option list strings gmap fin_maps sorting.

Set Default Proof Using "Type".

(** ** Strings and paths *)

Definition newline : ascii := Ascii.ascii_of_nat 10.
Definition nl : string := String newline "".
Definition slash : ascii := Ascii.ascii_of_nat 47.

(** [str.startswith] and [str.endswith]. *)
Fixpoint startswith (pre s : string) : bool :=
  match pre, s with
  | EmptyString, _ => true
  | String a pre', String b s' => Ascii.eqb a b && startswith pre' s'
  | String _ _, EmptyString => false
  end.

Fixpoint endswith (suf s : string) : bool :=
  String.eqb s suf ||
  match s with
  | EmptyString => false
  | String _ s' => endswith suf s'
  end.

Fixpoint has_char (c : ascii) (s : string) : bool :=
  match s with
  | EmptyString => false
  | String a s' => Ascii.eqb a c || has_char c s'
  end.

(** [posixpath.join(a, b)] for two components. *)
Definition join (a b : string) : string :=
  if startswith "/" b then b
  else if String.eqb a "" || endswith "/" a then a +:+ b
  else a +:+ "/" +:+ b.

(** [cuts acc s]: every prefix of [acc ++ s] that stops right before a
    separator of [s], longest first. *)
Fixpoint cuts (acc : string) (s : string) : list string :=
  match s with
  | EmptyString => []
  | String c s' =>
      let rest := cuts (acc +:+ String c "") s' in
      if Ascii.eqb c slash then rest ++ [acc] else rest
  end.

(** The proper ancestors of a path, outermost first (the directories
    [os.makedirs] walks through); empty components name nothing. *)
Definition ancestors (p : string) : list string :=
  filter (λ a, a ≠ "" ∧ endswith "/" a = false) (reverse (cuts "" p)).

(** [posixpath.dirname]: everything before the last separator, trailing
    separators dropped unless the head is all separators. *)
Fixpoint rstrip_slash_rev (r : list ascii) : list ascii :=
  match r with
  | c :: r' => if Ascii.eqb c slash then rstrip_slash_rev r' else r
  | [] => []
  end.

Fixpoint drop_to_slash (r : list ascii) : list ascii :=
  match r with
  | c :: r' => if Ascii.eqb c slash then r else drop_to_slash r'
  | [] => []
  end.

Definition dirname (p : string) : string :=
  let head := drop_to_slash (List.rev (list_ascii_of_string p)) in
  match rstrip_slash_rev head with
  | [] => string_of_list_ascii (List.rev head)
  | stripped => string_of_list_ascii (List.rev stripped)
  end.

(** ** Values the script handles *)

(** [time.localtime()]. *)
Record struct_time := {
  tm_year : Z; tm_mon : Z; tm_mday : Z;
  tm_hour : Z; tm_min : Z; tm_sec : Z
}.

(** A 2-D pixel buffer: rows of pixels. *)
Definition frame := list (list Z).

(** [shutil.disk_usage]: a named triple of byte counts. *)
Record usage := { total : Z; used : Z; free : Z }.

(** [subprocess.CompletedProcess], with [capture_output=True, text=True]. *)
Record CompletedProcess := { returncode : Z; stdout : string }.

Inductive capture_result :=
| Captured (f : frame)
| CaptureRaises (msg : string).

(** [cv2.imwrite]: writes and returns [True], returns [False] when the file
    cannot be written, or raises [cv2.error]. *)
Inductive imwrite_result :=
| ImwriteTrue
| ImwriteFalse
| ImwriteRaises (msg : string).

(** Python exceptions the script can meet. *)
Inductive exn :=
| SystemExit (code : Z)
| ArgparseExit
| Picamera2Error (msg : string)
| RuntimeError (msg : string)
| FileNotFoundError (path : string)
| FileExistsError (path : string)
| IsADirectoryError (path : string)
| NotADirectoryError (path : string)
| PermissionError (path : string)
| ZeroDivisionError
| ValueError (msg : string).

(** [isinstance(e, Exception)]: [SystemExit] derives from [BaseException]. *)
Definition is_Exception (e : exn) : bool :=
  match e with
  | SystemExit _ | ArgparseExit => false
  | _ => true
  end.

(** [str(e)]. *)
Definition exn_str (e : exn) : string :=
  match e with
  | SystemExit c => ""
  | ArgparseExit => ""
  | Picamera2Error m | RuntimeError m | ValueError m => m
  | FileNotFoundError p => "[Errno 2] No such file or directory: '" +:+ p +:+ "'"
  | FileExistsError p => "[Errno 17] File exists: '" +:+ p +:+ "'"
  | IsADirectoryError p => "[Errno 21] Is a directory: '" +:+ p +:+ "'"
  | NotADirectoryError p => "[Errno 20] Not a directory: '" +:+ p +:+ "'"
  | PermissionError p => "[Errno 13] Permission denied: '" +:+ p +:+ "'"
  | ZeroDivisionError => "division by zero"
  end.

(** ** The world *)

Inductive kind := RegularFile | Directory.

Record inode := { st_kind : kind; st_ctime : Z; st_data : string }.

(** One entry per call that reaches outside the interpreter. *)
Inductive event :=
| EvStrftime (ts : string)
| EvCameraStart
| EvCapture
| EvRotate
| EvImwrite (path : string) (f : frame)
| EvMakedirs (path : string)
| EvWrite (path : string) (data : string)
| EvAppend (path : string) (data : string)
| EvRun (argv : list string) (cwd : string)
| EvPrint (line : string)
| EvRemove (path : string)
| EvDiskUsage (r : usage)
| EvSleep (secs : Z)
| EvCameraStop.

(** The file system is a flat map from path strings, exactly as the script
    spells them, to inodes; [log] holds the calls made so far, newest first. *)
Record World := { fs : gmap string inode; log : list event }.

(** Calls in the order they were made. *)
Definition history (w : World) : list event := reverse (log w).

(** Logical time: the number of calls made so far. *)
Abbreviation now w := (length (log w)).

(** What the outside answers, as a function of logical time. *)
Record Env := {
  clock : nat → struct_time;
  camera_start : nat → option string;
  camera_capture : nat → capture_result;
  cv2_encode : nat → imwrite_result;
  jpeg : frame → string;
  stamp : nat → Z;
  subprocess : nat → CompletedProcess;
  disk : nat → usage;
  unlink_denied : string → bool;
  script_dir : string
}.

(** ** State and exception monad *)

Inductive res (A : Type) :=
| Ok (a : A)
| Raise (e : exn).
Arguments Ok {A} a.
Arguments Raise {A} e.

Definition M (A : Type) : Type := World → res A * World.

Definition ret {A} (a : A) : M A := λ w, (Ok a, w).
Definition raise {A} (e : exn) : M A := λ w, (Raise e, w).
Definition bind {A B} (m : M A) (k : A → M B) : M B :=
  λ w, match m w with
       | (Ok a, w') => k a w'
       | (Raise e, w') => (Raise e, w')
       end.

Declare Scope py_scope.
Delimit Scope py_scope with py.
Notation "x <- m ;; k" := (bind m (λ x, k))
  (at level 100, m at next level, right associativity) : py_scope.
Notation "m ;; k" := (bind m (λ _, k))
  (at level 100, right associativity) : py_scope.
Open Scope py_scope.

(** [try: m  except <caught> as e: h e]. *)
Definition try_except {A} (m : M A) (caught : exn → bool) (h : exn → M A) : M A :=
  λ w, match m w with
       | (Raise e, w') => if caught e then h e w' else (Raise e, w')
       | r => r
       end.

(** Record a call. *)
Definition emit (ev : event) : M unit :=
  λ w, (Ok tt, {| fs := fs w; log := ev :: log w |}).

Definition get_fs : M (gmap string inode) := λ w, (Ok (fs w), w).
Definition put_fs (m : gmap string inode) : M unit :=
  λ w, (Ok tt, {| fs := m; log := log w |}).
Definition get_now : M nat := λ w, (Ok (now w), w).

(** ** Formatting and pure helpers *)

Definition digit (n : Z) : ascii := Ascii.ascii_of_nat (48 + Z.to_nat (n mod 10)).

Definition is_digit (c : ascii) : bool :=
  (48 <=? Ascii.nat_of_ascii c) && (Ascii.nat_of_ascii c <=? 57).

(** [%d]: decimal digits, most significant first. *)
Fixpoint dec_go (fuel : nat) (n : Z) (acc : string) : string :=
  match fuel with
  | O => acc
  | S fuel' =>
      let acc' := String (digit n) acc in
      if (n / 10 =? 0)%Z then acc' else dec_go fuel' (n / 10) acc'
  end.

Definition dec (n : Z) : string := dec_go (S (Z.to_nat n)) n "".

(** [%02d]. *)
Definition pad2 (n : Z) : string :=
  if (n <? 10)%Z then "0" +:+ dec n else dec n.

(** [time.strftime("%Y%m%d-%H%M%S")] on a broken-down local time. *)
Definition strftime_YmdHMS (t : struct_time) : string :=
  dec (tm_year t) +:+ pad2 (tm_mon t) +:+ pad2 (tm_mday t) +:+ "-" +:+
  pad2 (tm_hour t) +:+ pad2 (tm_min t) +:+ pad2 (tm_sec t).

(** [cv2.rotate(frame, cv2.ROTATE_90_CLOCKWISE)]: column [i] of the input,
    read bottom to top, becomes row [i] of the output. *)
Definition rotate_90_clockwise (f : frame) : frame :=
  fold_left (λ acc row, zip_with cons row acc) f
            (replicate (length (hd [] f)) []).

(** Python [int] to [float], and [used / total * 100 > threshold]. *)
Definition Z_to_float (z : Z) : float :=
  if (z <? 0)%Z then PrimFloat.opp (PrimFloat.of_uint63 (Uint63.of_Z (- z)))
  else PrimFloat.of_uint63 (Uint63.of_Z z).

Definition percent (r : usage) : float :=
  PrimFloat.mul (PrimFloat.div (Z_to_float (used r)) (Z_to_float (total r)))
                (Z_to_float 100).

Definition exceeds (pct : float) (threshold : Z) : bool :=
  PrimFloat.ltb (Z_to_float threshold) pct.

(** [sorted(xs, key=...)] on precomputed keys: a stable insertion sort. *)
Fixpoint insert_by_key (x : Z * string) (l : list (Z * string)) : list (Z * string) :=
  match l with
  | [] => [x]
  | y :: l' => if (x.1 <=? y.1)%Z then x :: y :: l' else y :: insert_by_key x l'
  end.

Definition sort_by_key (l : list (Z * string)) : list (Z * string) :=
  foldr insert_by_key [] l.

(** The name under which [p] is listed in directory [d], if it is an entry of
    [d]: [p] is [d], a separator, and one non-empty component. *)
Fixpoint strip_prefix (pre s : string) : option string :=
  match pre, s with
  | EmptyString, _ => Some s
  | String a pre', String b s' => if Ascii.eqb a b then strip_prefix pre' s' else None
  | String _ _, EmptyString => None
  end.

Definition entry_name (d p : string) : option string :=
  match strip_prefix (join d "") p with
  | Some n => if String.eqb n "" || has_char slash n then None else Some n
  | None => None
  end.

Definition dir_entries (m : gmap string inode) (d : string) : list string :=
  omap (λ kv, entry_name d kv.1) (map_to_list m).

Definition dir_node (t : Z) : inode :=
  {| st_kind := Directory; st_ctime := t; st_data := "" |}.
Definition file_node (t : Z) (data : string) : inode :=
  {| st_kind := RegularFile; st_ctime := t; st_data := data |}.

(** Why [open(p, 'w')] or [open(p, 'a')] would fail, if it would. *)
Definition open_error (m : gmap string inode) (p : string) : option exn :=
  match st_kind <$> m !! p with
  | Some Directory => Some (IsADirectoryError p)
  | _ =>
      let d := dirname p in
      if String.eqb d "" then None
      else match st_kind <$> m !! d with
           | Some Directory => None
           | Some RegularFile => Some (NotADirectoryError p)
           | None => Some (FileNotFoundError p)
           end
  end.

(** Why [os.remove(p)] would fail, if it would; [denied] holds the paths the
    system refuses to unlink. *)
Definition unlink_error (denied : string → bool) (m : gmap string inode) (p : string)
  : option exn :=
  match st_kind <$> m !! p with
  | None => Some (FileNotFoundError p)
  | Some Directory => Some (IsADirectoryError p)
  | Some RegularFile => if denied p then Some (PermissionError p) else None
  end.

(** The directories [os.makedirs] creates on its way down [todo]. *)
Fixpoint mkdirs (t : Z) (todo : list string) (m : gmap string inode)
  : res (gmap string inode) :=
  match todo with
  | [] => Ok m
  | a :: rest =>
      match st_kind <$> m !! a with
      | None => mkdirs t rest (<[a := dir_node t]> m)
      | Some Directory => mkdirs t rest m
      | Some RegularFile => Raise (NotADirectoryError (hd a rest))
      end
  end.

(** ** Library calls *)

Section Script.
Context (env : Env).

(** [time.strftime("%Y%m%d-%H%M%S")]. *)
Definition time_strftime : M string :=
  t <- get_now ;;
  let ts := strftime_YmdHMS (clock env t) in
  emit (EvStrftime ts) ;;
  ret ts.

(** [Picamera2()] and [picam2.start()]. *)
Definition picam2_call : M unit :=
  t <- get_now ;;
  emit EvCameraStart ;;
  match camera_start env t with
  | Some msg => raise (Picamera2Error msg)
  | None => ret tt
  end.

Definition picam2_capture_array : M frame :=
  t <- get_now ;;
  emit EvCapture ;;
  match camera_capture env t with
  | Captured f => ret f
  | CaptureRaises msg => raise (RuntimeError msg)
  end.

Definition picam2_stop : M unit := emit EvCameraStop.

Definition cv2_rotate (f : frame) : M frame :=
  emit EvRotate ;;
  ret (rotate_90_clockwise f).

Definition cv2_imwrite (p : string) (f : frame) : M bool :=
  t <- get_now ;;
  emit (EvImwrite p f) ;;
  match cv2_encode env t with
  | ImwriteRaises msg => raise (RuntimeError msg)
  | ImwriteFalse => ret false
  | ImwriteTrue =>
      m <- get_fs ;;
      match open_error m p with
      | Some _ => ret false
      | None => put_fs (<[p := file_node (stamp env t) (jpeg env f)]> m) ;; ret true
      end
  end.

Definition print (line : string) : M unit := emit (EvPrint line).

Definition os_path_exists (p : string) : M bool :=
  m <- get_fs ;;
  ret (match m !! p with Some _ => true | None => false end).

Definition os_makedirs (p : string) : M unit :=
  t <- get_now ;;
  emit (EvMakedirs p) ;;
  m <- get_fs ;;
  match mkdirs (stamp env t) (ancestors p) m with
  | Raise e => raise e
  | Ok m' =>
      match m' !! p with
      | Some _ => raise (FileExistsError p)
      | None => put_fs (<[p := dir_node (stamp env t)]> m')
      end
  end.

(** [with open(p, 'w') as f: f.write(data)]. *)
Definition write_text (p data : string) : M unit :=
  t <- get_now ;;
  emit (EvWrite p data) ;;
  m <- get_fs ;;
  match open_error m p with
  | Some e => raise e
  | None => put_fs (<[p := file_node (stamp env t) data]> m)
  end.

(** [with open(p, 'a') as f: f.write(data)]. *)
Definition append_text (p data : string) : M unit :=
  t <- get_now ;;
  emit (EvAppend p data) ;;
  m <- get_fs ;;
  match open_error m p with
  | Some e => raise e
  | None =>
      let old := default "" (st_data <$> m !! p) in
      put_fs (<[p := file_node (stamp env t) (old +:+ data)]> m)
  end.

Definition os_remove (p : string) : M unit :=
  emit (EvRemove p) ;;
  m <- get_fs ;;
  match unlink_error (unlink_denied env) m p with
  | Some e => raise e
  | None => put_fs (delete p m)
  end.

Definition os_listdir (d : string) : M (list string) :=
  m <- get_fs ;;
  match st_kind <$> m !! d with
  | None => raise (FileNotFoundError d)
  | Some RegularFile => raise (NotADirectoryError d)
  | Some Directory => ret (dir_entries m d)
  end.

Definition os_path_getctime (p : string) : M Z :=
  m <- get_fs ;;
  match m !! p with
  | Some i => ret (st_ctime i)
  | None => raise (FileNotFoundError p)
  end.

Definition shutil_disk_usage : M usage :=
  t <- get_now ;;
  let r := disk env t in
  emit (EvDiskUsage r) ;;
  ret r.

(** [subprocess.run(argv, cwd=cwd)]: the exit status is part of the value. *)
Definition subprocess_run (argv : list string) (cwd : string) : M CompletedProcess :=
  t <- get_now ;;
  emit (EvRun argv cwd) ;;
  ret (subprocess env t).

Definition time_sleep (secs : Z) : M unit :=
  emit (EvSleep secs) ;;
  if (secs <? 0)%Z then raise (ValueError "sleep length must be non-negative")
  else ret tt.

(** ** [manage_disk_usage] (lines 43-58) *)

(** [(used / total) * 100]. *)
Definition used_percentage (r : usage) : M float :=
  if (total r =? 0)%Z then raise ZeroDivisionError else ret (percent r).

(** [sorted(paths, key=os.path.getctime)]. *)
Fixpoint with_ctime (paths : list string) : M (list (Z * string)) :=
  match paths with
  | [] => ret []
  | p :: rest =>
      k <- os_path_getctime p ;;
      ks <- with_ctime rest ;;
      ret ((k, p) :: ks)
  end.

Definition sorted_by_ctime (paths : list string) : M (list string) :=
  ks <- with_ctime paths ;;
  ret ((sort_by_key ks).*2).

(** The [while used_percentage > threshold and files:] loop. *)
Fixpoint evict (threshold : Z) (files : list string) (pct : float) : M unit :=
  match files with
  | [] => ret tt
  | oldest_file :: files' =>
      if exceeds pct threshold then
        os_remove oldest_file ;;
        print ("Deleted " +:+ oldest_file) ;;
        r <- shutil_disk_usage ;;
        pct' <- used_percentage r ;;
        evict threshold files' pct'
      else ret tt
  end.

Definition candidates (directory : string) (names : list string) : list string :=
  join directory <$> filter (λ f, endswith ".jpg" f = true) names.

Definition manage_disk_usage (directory : string) (threshold : Z) : M unit :=
  r <- shutil_disk_usage ;;
  pct <- used_percentage r ;;
  if exceeds pct threshold then
    print "Disk usage exceeded threshold. Deleting oldest files..." ;;
    names <- os_listdir directory ;;
    files <- sorted_by_ctime (candidates directory names) ;;
    evict threshold files pct
  else ret tt.

(** ** The capture loop (lines 99-126) *)

(** What the loop closes over. *)
Record Session := {
  output_dir : string;
  metadata_path : string;
  repo_path : string;
  interval : Z
}.

(** How one pass through a loop body ends. *)
Inductive signal := FallThrough | Continue | Break.

Definition default_threshold : Z := 80.

(** Lines 104-110, the [try] block and its handler; [true] when the handler
    ran, that is when the pass ends in [continue]. *)
Definition capture_and_save (image_path : string) : M bool :=
  try_except
    (frame <- picam2_capture_array ;;
     frame <- cv2_rotate frame ;;
     cv2_imwrite image_path frame ;;
     ret false)
    is_Exception
    (λ e, print ("Failed to capture or save image: " +:+ exn_str e) ;; ret true).

(** Lines 112-124: ledger entry, git add / commit / push, local delete, disk
    guard.  No result of [subprocess.run] is looked at. *)
Definition persist_and_sync (s : Session) (timestamp image_path : string) : M unit :=
  append_text (metadata_path s) (timestamp +:+ "," +:+ image_path +:+ nl) ;;
  subprocess_run ["git"; "add"; image_path; metadata_path s] (repo_path s) ;;
  subprocess_run ["git"; "commit"; "-m"; "Add image and metadata for " +:+ timestamp]
                 (repo_path s) ;;
  subprocess_run ["git"; "push"] (repo_path s) ;;
  print ("Captured and uploaded image at " +:+ timestamp) ;;
  os_remove image_path ;;
  print ("Deleted local image at " +:+ image_path) ;;
  manage_disk_usage (output_dir s) default_threshold.

(** One pass of [while True:] (lines 101-126). *)
Definition loop_body (s : Session) : M signal :=
  timestamp <- time_strftime ;;
  let image_path := join (output_dir s) (timestamp +:+ ".jpg") in
  failed <- capture_and_save image_path ;;
  if failed : bool then ret Continue
  else
    persist_and_sync s timestamp image_path ;;
    time_sleep (interval s) ;;
    ret FallThrough.

(** How far a run of the loop got: it left the loop, or it is still inside it
    after [completed] passes that fell through to the end of the body. *)
Inductive loop_end := Exited | Running (completed : nat).

(** [while True: body], cut after [fuel] passes. *)
Fixpoint while_true (fuel : nat) (body : M signal) (completed : nat) : M loop_end :=
  match fuel with
  | O => ret (Running completed)
  | S fuel' =>
      s <- body ;;
      match s with
      | Break => ret Exited
      | Continue => while_true fuel' body completed
      | FallThrough => while_true fuel' body (S completed)
      end
  end.

(** ** Bootstrap (lines 60-97) *)

Record Args := { experiment_name : string; image_interval : Z }.

Definition is_space (c : ascii) : bool :=
  let n := Ascii.nat_of_ascii c in (n =? 32) || ((9 <=? n) && (n <=? 13)).

Fixpoint lstrip (l : list ascii) : list ascii :=
  match l with
  | c :: l' => if is_space c then lstrip l' else l
  | [] => []
  end.

(** [str.strip()]. *)
Definition py_strip (s : string) : string :=
  string_of_list_ascii
    (List.rev (lstrip (List.rev (lstrip (list_ascii_of_string s))))).

(** Digits with single underscores between them, as [int()] reads them. *)
Fixpoint digits_value (acc : Z) (after_digit : bool) (l : list ascii) : option Z :=
  match l with
  | [] => if after_digit then Some acc else None
  | c :: l' =>
      if is_digit c then
        digits_value (10 * acc + Z.of_nat (Ascii.nat_of_ascii c - 48)) true l'
      else if Ascii.eqb c "_" && after_digit then
        match l' with
        | d :: _ => if is_digit d then digits_value acc false l' else None
        | [] => None
        end
      else None
  end.

(** [int(s)] in base ten. *)
Definition py_int (s : string) : option Z :=
  match list_ascii_of_string (py_strip s) with
  | "-"%char :: l => Z.opp <$> digits_value 0 false l
  | "+"%char :: l => digits_value 0 false l
  | l => digits_value 0 false l
  end.

(** argparse's negative-number pattern: [-\d+] or [-\d*\.\d+]. *)
Fixpoint all_digits (l : list ascii) : bool :=
  match l with
  | [] => true
  | c :: l' => is_digit c && all_digits l'
  end.

Fixpoint after_int_part (l : list ascii) : bool :=
  match l with
  | [] => true
  | c :: l' =>
      if is_digit c then after_int_part l'
      else Ascii.eqb c "." && negb (match l' with [] => true | _ => false end) && all_digits l'
  end.

Definition looks_like_negative_number (s : string) : bool :=
  match list_ascii_of_string s with
  | "-"%char :: (c :: l) => after_int_part (c :: l)
  | _ => false
  end.

(** Whether argparse reads a token as an option rather than a positional:
    it is [-h...] or abbreviates [--help], or it starts with a dash, is longer
    than the dash, is no negative number and holds no space. *)
Definition optional_like (s : string) : bool :=
  startswith "-" s && (1 <? String.length s) &&
  (startswith "-h" s
   || (startswith "--" s && (2 <? String.length s) && startswith s "--help")
   || (negb (looks_like_negative_number s) && negb (has_char " " s))).

(** What follows the first [--] is positional whatever it looks like. *)
Fixpoint positionals (argv : list string) : option (list string) :=
  match argv with
  | [] => Some []
  | a :: rest =>
      if String.eqb a "--" then Some rest
      else if optional_like a then None
      else cons a <$> positionals rest
  end.

(** [parser.parse_args()] for the two positionals [experiment_name] (a [str])
    and [image_interval] (an [int]); help and usage errors leave through
    [SystemExit]. *)
Definition parse_args (argv : list string) : M Args :=
  match positionals argv with
  | Some [name; secs] =>
      match py_int secs with
      | Some z => ret {| experiment_name := name; image_interval := z |}
      | None => raise ArgparseExit
      end
  | _ => raise ArgparseExit
  end.

Definition readme_text (name : string) : string :=
  "# " +:+ name +:+ " Images" +:+ nl +:+ nl
  +:+ "This directory contains images captured during the experiment." +:+ nl
  +:+ "Each image is named with a timestamp indicating when it was taken." +:+ nl +:+ nl
  +:+ "## Metadata" +:+ nl +:+ nl
  +:+ "Additional metadata about the images can be found in `metadata.csv`." +:+ nl.

Definition ledger_header : string := "Timestamp,Image Path" +:+ nl.

Definition bootstrap (argv : list string) : M Session :=
  args <- parse_args argv ;;
  try_except (picam2_call ;; picam2_call)
    (λ e, match e with Picamera2Error _ => true | _ => false end)
    (λ e, print ("Failed to initialize Picamera2: " +:+ exn_str e) ;;
          raise (SystemExit 1)) ;;
  timestamp <- time_strftime ;;
  let output_dir := "images/" +:+ experiment_name args +:+ "_" +:+ timestamp in
  there <- os_path_exists output_dir ;;
  (if there : bool then ret tt else os_makedirs output_dir) ;;
  let metadata_path := join output_dir "metadata.csv" in
  let readme_path := join output_dir "README.md" in
  there <- os_path_exists metadata_path ;;
  (if there : bool then ret tt else write_text metadata_path ledger_header) ;;
  there <- os_path_exists readme_path ;;
  (if there : bool then ret tt
   else write_text readme_path (readme_text (experiment_name args))) ;;
  let repo_path := script_dir env in
  branch <- subprocess_run ["git"; "branch"; "--show-current"] repo_path ;;
  let current_branch := py_strip (stdout branch) in
  subprocess_run ["git"; "checkout"; current_branch] repo_path ;;
  ret {| output_dir := output_dir; metadata_path := metadata_path;
         repo_path := repo_path; interval := image_interval args |}.

(** The whole script, its loop cut after [fuel] passes. *)
Definition main (fuel : nat) (argv : list string) : M loop_end :=
  s <- bootstrap argv ;;
  r <- while_true fuel (loop_body s) 0 ;;
  match r with
  | Exited =>
      picam2_stop ;;
      print "Camera stopped." ;;
      ret Exited
  | Running n => ret (Running n)
  end.

End Script.

(** * Proof-side vocabulary *)

Definition is_image_path (d p : string) : bool :=
  match entry_name d p with
  | Some n => endswith ".jpg" n
  | None => false
  end.

Definition ctime_of (m : gmap string inode) (p : string) : Z :=
  default 0%Z (st_ctime <$> m !! p).

Definition removable (env : Env) (m : gmap string inode) (p : string) : Prop :=
  unlink_error (unlink_denied env) m p = None.




Definition sorted_paths (m : gmap string inode) (paths : list string) : list string :=
  (sort_by_key ((λ p, (ctime_of m p, p)) <$> paths)).*2.


Definition guard_event (files : list string) (ev : event) : Prop :=
  match ev with
  | EvRemove p => p ∈ files
  | EvPrint _ | EvDiskUsage _ => True
  | _ => False
  end.



(** The ranges [time.localtime()] documents, with a four-digit year. *)
Definition wf_time (t : struct_time) : Prop :=
  (1000 ≤ tm_year t ≤ 9999 ∧ 1 ≤ tm_mon t ≤ 12 ∧ 1 ≤ tm_mday t ≤ 31 ∧
   0 ≤ tm_hour t ≤ 23 ∧ 0 ≤ tm_min t ≤ 59 ∧ 0 ≤ tm_sec t ≤ 61)%Z.

(** [n] leading decimal digits, and what follows them. *)
Fixpoint digits_prefix (n : nat) (s : string) : option string :=
  match n with
  | O => Some s
  | S n' =>
      match s with
      | String c s' => if is_digit c then digits_prefix n' s' else None
      | EmptyString => None
      end
  end.

(** [^\d{8}-\d{6}$]. *)
Definition timestamp_ok (ts : string) : bool :=
  match digits_prefix 8 ts with
  | Some (String "-" rest) =>
      match digits_prefix 6 rest with
      | Some EmptyString => true
      | _ => false
      end
  | _ => false
  end.



Definition image_path_at (env : Env) (s : Session) (w : World) : string :=
  join (output_dir s) (strftime_YmdHMS (clock env (now w)) +:+ ".jpg").

Definition ledger_line (ts path : string) : string := ts +:+ "," +:+ path +:+ nl.

(** The file system [cv2.imwrite] leaves behind when it does not raise. *)
Definition imwrite_fs (env : Env) (t : nat) (m : gmap string inode) (p : string) (f : frame)
  : gmap string inode :=
  match cv2_encode env t, open_error m p with
  | ImwriteTrue, None => <[p := file_node (stamp env t) (jpeg env f)]> m
  | _, _ => m
  end.

Definition append_fs (env : Env) (t : nat) (m : gmap string inode) (p data : string)
  : gmap string inode :=
  <[p := file_node (stamp env t) (default "" (st_data <$> m !! p) +:+ data)]> m.

Definition failure_log (msg : string) : event :=
  EvPrint ("Failed to capture or save image: " +:+ msg).

(** The calls of [persist_and_sync] up to the local delete, newest first. *)
Definition sync_log (s : Session) (ts p : string) : list event :=
  [EvPrint ("Deleted local image at " +:+ p);
   EvRemove p;
   EvPrint ("Captured and uploaded image at " +:+ ts);
   EvRun ["git"; "push"] (repo_path s);
   EvRun ["git"; "commit"; "-m"; "Add image and metadata for " +:+ ts] (repo_path s);
   EvRun ["git"; "add"; p; metadata_path s] (repo_path s);
   EvAppend (metadata_path s) (ledger_line ts p)].

Definition sleep_error : exn := ValueError "sleep length must be non-negative".

(** A copy of the environment in which git answers [g]. *)
Definition with_subprocess (env : Env) (g : nat → CompletedProcess) : Env :=
  {| clock := clock env; camera_start := camera_start env;
     camera_capture := camera_capture env; cv2_encode := cv2_encode env;
     jpeg := jpeg env; stamp := stamp env; subprocess := g; disk := disk env;
     unlink_denied := unlink_denied env; script_dir := script_dir env |}.

(** [emits_only P m]: whatever [m] does, it only adds calls satisfying [P]
    to the log, and never rewrites the log it started from. *)
Definition emits_only {A} (P : event → Prop) (m : M A) : Prop :=
  ∀ w, ∃ evs, log (m w).2 = evs ++ log w ∧ Forall P evs.

(** A call of the statements after the loop. *)
Definition post_loop (ev : event) : bool :=
  match ev with
  | EvCameraStop => true
  | EvPrint line => String.eqb line "Camera stopped."
  | _ => false
  end.

Definition in_loop (ev : event) : Prop := post_loop ev = false.

Definition session_ok (s : Session) : Prop :=
  metadata_path s = join (output_dir s) "metadata.csv".

Definition ledger_text (s : Session) (w : World) : string :=
  default "" (st_data <$> fs w !! metadata_path s).


(** Tokens argparse takes as positionals. *)
Definition plain_token (a : string) : bool :=
  negb (String.eqb a "--") && negb (optional_like a).

(** A printable ASCII character that no base-ten integer literal holds. *)
Definition not_in_int_literal (c : ascii) : bool :=
  let n := Ascii.nat_of_ascii c in
  (33 <=? n) && (n <=? 126) && negb (is_digit c)
  && negb (Ascii.eqb c "_") && negb (Ascii.eqb c "+") && negb (Ascii.eqb c "-").

(** What bootstrap does for a path it creates only when missing. *)
Definition unless_present (m : gmap string inode) (p : string) (evs : list event)
  : list event :=
  match m !! p with Some _ => [] | None => evs end.

(** [keeps_entries m]: whatever [m] does, every entry of the file system it
    started from is still there, unchanged. *)
Definition keeps_entries {A} (m : M A) : Prop := ∀ w, fs w ⊆ fs (m w).2.

(** A [subprocess.run] of git in [dir], or no [subprocess.run] at all. *)
Definition git_call (dir : string) (ev : event) : Prop :=
  match ev with
  | EvRun argv cwd => head argv = Some "git" ∧ cwd = dir
  | _ => True
  end.

(** Calls the loop has no statement for. *)
Definition loop_call (ev : event) : Prop :=
  match ev with
  | EvWrite _ _ | EvMakedirs _ | EvCameraStart => False
  | _ => True
  end.

(** The calls of a pass whose capture fails. *)
Definition retry_call (ev : event) : Prop :=
  match ev with
  | EvStrftime _ | EvCapture | EvPrint _ => True
  | _ => False
  end.

(** The paths a pass of the loop can create, change or unlink. *)
Definition loop_may_touch (s : Session) (q : string) : Prop :=
  q = metadata_path s ∨ ∃ n, q = join (output_dir s) n ∧ endswith ".jpg" n = true.

(** Column [i] of a frame, top to bottom. *)
Definition column (i : nat) (f : frame) : list Z := omap (λ row, row !! i) f.




(** * Worked scenarios *)

Definition demo_time : struct_time :=
  {| tm_year := 2024; tm_mon := 3; tm_mday := 7;
     tm_hour := 9; tm_min := 5; tm_sec := 0 |}.

Definition demo_frame : frame := [[1; 2]; [3; 4]]%Z.

Definition reading (pct : Z) : usage :=
  {| total := 100; used := pct; free := 100 - pct |}.

(** A healthy host whose git commands all fail: the clock stands still, the
    camera and the encoder work, the disk is half full. *)
Definition demo_env : Env :=
  {| clock := λ _, demo_time;
     camera_start := λ _, None;
     camera_capture := λ _, Captured demo_frame;
     cv2_encode := λ _, ImwriteTrue;
     jpeg := λ _, "JFIF";
     stamp := Z.of_nat;
     subprocess := λ _, {| returncode := 1; stdout := "main" +:+ nl |};
     disk := λ _, reading 50;
     unlink_denied := λ _, false;
     script_dir := "/home/pi/Images_FW02" |}.

(** The same host with a camera that fails on its first frame. *)
Definition flaky_env : Env :=
  {| clock := clock demo_env; camera_start := camera_start demo_env;
     camera_capture := λ t, if t =? 9 then CaptureRaises "Camera frontend has timed out!"
                           else Captured demo_frame;
     cv2_encode := cv2_encode demo_env; jpeg := jpeg demo_env; stamp := stamp demo_env;
     subprocess := subprocess demo_env; disk := disk demo_env;
     unlink_denied := unlink_denied demo_env; script_dir := script_dir demo_env |}.

(** 85 % used on the first reading, 78 % from then on. *)
Definition full_disk_env : Env :=
  {| clock := clock demo_env; camera_start := camera_start demo_env;
     camera_capture := camera_capture demo_env; cv2_encode := cv2_encode demo_env;
     jpeg := jpeg demo_env; stamp := stamp demo_env; subprocess := subprocess demo_env;
     disk := λ t, if t =? 0 then reading 85 else reading 78;
     unlink_denied := unlink_denied demo_env; script_dir := script_dir demo_env |}.

(** 85 % used whatever is removed, and the oldest image cannot be unlinked. *)
Definition locked_env : Env :=
  {| clock := clock demo_env; camera_start := camera_start demo_env;
     camera_capture := camera_capture demo_env; cv2_encode := cv2_encode demo_env;
     jpeg := jpeg demo_env; stamp := stamp demo_env; subprocess := subprocess demo_env;
     disk := λ _, reading 85;
     unlink_denied := λ p, String.eqb p "out/b.jpg";
     script_dir := script_dir demo_env |}.

Definition empty_world : World := {| fs := ∅; log := [] |}.

Definition demo_session : Session :=
  {| output_dir := "images/trial1_20240307-090500";
     metadata_path := "images/trial1_20240307-090500/metadata.csv";
     repo_path := "/home/pi/Images_FW02";
     interval := 5 |}.

(** The world [python3 pi-camera.py trial1 5] enters its loop in. *)
Definition demo_world : World := (bootstrap demo_env ["trial1"; "5"] empty_world).2.

(** A directory with three images, [b.jpg] the oldest and [c.jpg] the
    newest, beside a ledger and a README. *)
Definition guard_world : World :=
  {| fs := list_to_map
             [("out", dir_node 0);
              ("out/a.jpg", file_node 20 "A");
              ("out/b.jpg", file_node 10 "B");
              ("out/c.jpg", file_node 30 "C");
              ("out/metadata.csv", file_node 5 ledger_header);
              ("out/README.md", file_node 5 (readme_text "trial1"))];
     log := [] |}.

(** No camera is attached. *)
Definition no_camera_env : Env :=
  {| clock := clock demo_env; camera_start := λ _, Some "Camera not found";
     camera_capture := camera_capture demo_env; cv2_encode := cv2_encode demo_env;
     jpeg := jpeg demo_env; stamp := stamp demo_env; subprocess := subprocess demo_env;
     disk := disk demo_env; unlink_denied := unlink_denied demo_env;
     script_dir := script_dir demo_env |}.

(** The camera starts but never delivers a frame. *)
Definition stuck_camera_env : Env :=
  {| clock := clock demo_env; camera_start := camera_start demo_env;
     camera_capture := λ _, CaptureRaises "Camera frontend has timed out!";
     cv2_encode := cv2_encode demo_env; jpeg := jpeg demo_env; stamp := stamp demo_env;
     subprocess := subprocess demo_env; disk := disk demo_env;
     unlink_denied := unlink_denied demo_env; script_dir := script_dir demo_env |}.

(** The encoder reports failure instead of raising. *)
Definition silent_encoder_env : Env :=
  {| clock := clock demo_env; camera_start := camera_start demo_env;
     camera_capture := camera_capture demo_env; cv2_encode := λ _, ImwriteFalse;
     jpeg := jpeg demo_env; stamp := stamp demo_env; subprocess := subprocess demo_env;
     disk := disk demo_env; unlink_denied := unlink_denied demo_env;
     script_dir := script_dir demo_env |}.

(** The root file system reports a size of zero. *)
Definition unsized_disk_env : Env :=
  {| clock := clock demo_env; camera_start := camera_start demo_env;
     camera_capture := camera_capture demo_env; cv2_encode := cv2_encode demo_env;
     jpeg := jpeg demo_env; stamp := stamp demo_env; subprocess := subprocess demo_env;
     disk := λ _, {| total := 0; used := 0; free := 0 |};
     unlink_denied := unlink_denied demo_env; script_dir := script_dir demo_env |}.

(** The world after bootstrap, with a directory where the ledger should be. *)
Definition ledger_dir_world : World :=
  {| fs := <[metadata_path demo_session := dir_node 0]> (fs demo_world);
     log := log demo_world |}.

(** * Proofs *)

Arguments Ascii.eqb : simpl never.
Arguments String.eqb : simpl never.
(** ** Strings *)

Lemma app_cons (c : ascii) (s t : string) : String c s +:+ t = String c (s +:+ t).
Proof. reflexivity. Qed.

Lemma app_empty_r (s : string) : s +:+ "" = s.
Proof. induction s as [|c s IH]; [done | by rewrite app_cons, IH]. Qed.

Lemma app_assoc_str (a b c : string) : (a +:+ b) +:+ c = a +:+ (b +:+ c).
Proof. induction a as [|x a IH]; [done | by rewrite !app_cons, IH]. Qed.

Lemma strip_prefix_app (pre s : string) : strip_prefix pre (pre +:+ s) = Some s.
Proof.
  induction pre as [|c pre IH]; [by destruct s|].
  rewrite app_cons. simpl. by rewrite Ascii.eqb_refl.
Qed.

Lemma strip_prefix_Some (pre s n : string) :
  strip_prefix pre s = Some n → s = pre +:+ n.
Proof.
  revert s; induction pre as [|c pre IH]; intros s; simpl.
  { by intros [= ->]. }
  destruct s as [|b s]; [done|].
  destruct (Ascii.eqb_spec c b) as [->|]; [|done].
  intros H. by rewrite app_cons, (IH _ H).
Qed.

(** A name that does not start with a separator is joined by appending it
    to the directory prefix. *)
Lemma join_prefix (d n : string) :
  startswith "/" n = false → join d n = join d "" +:+ n.
Proof.
  intros Hn. unfold join. rewrite Hn. simpl.
  destruct (String.eqb d "" || endswith "/" d).
  - by rewrite app_empty_r.
  - by rewrite app_assoc_str.
Qed.

Lemma has_char_startswith (n : string) :
  has_char slash n = false → startswith "/" n = false.
Proof.
  destruct n as [|c n]; [done|]. simpl.
  destruct (Ascii.eqb_spec c slash) as [->|Hc]; [done|]. intros _.
  rewrite Ascii.eqb_sym. by destruct (Ascii.eqb_spec c "/").
Qed.

Lemma entry_name_join (d p n : string) : entry_name d p = Some n → join d n = p.
Proof.
  unfold entry_name. destruct (strip_prefix _ _) as [n'|] eqn:Hs; [|done].
  destruct (String.eqb n' "") eqn:He; [done|]. 
  destruct (has_char slash n') eqn:Hc; [done|]. simpl.
  intros [= <-]. rewrite join_prefix by by apply has_char_startswith.
  symmetry. by apply strip_prefix_Some.
Qed.

Lemma entry_name_of_join (d n n' : string) :
  startswith "/" n = false → entry_name d (join d n) = Some n' → n' = n.
Proof.
  intros Hn. unfold entry_name. rewrite (join_prefix _ _ Hn), strip_prefix_app.
  destruct (_ || _); congruence.
Qed.

Arguments percent : simpl never.
Arguments exceeds : simpl never.
Arguments String.app : simpl never.
Arguments join : simpl never.
Arguments strftime_YmdHMS : simpl never.
Arguments rotate_90_clockwise : simpl never.
Arguments dir_entries : simpl never.
Arguments candidates : simpl never.
Arguments open_error : simpl never.
Arguments ancestors : simpl never.
Arguments used_percentage : simpl never.

(** ** Directory listings *)

Lemma candidates_filter (m : gmap string inode) (d : string) :
  candidates d (dir_entries m d)
  = filter (λ p, is_image_path d p = true) (map_to_list m).*1.
Proof.
  unfold candidates, dir_entries.
  induction (map_to_list m) as [|[k v] l IH]; [done|].
  csimpl. rewrite filter_cons, <- IH.
  destruct (decide (is_image_path d k = true)) as [Hi|Hi];
    unfold is_image_path in Hi; destruct (entry_name d k) as [n|] eqn:Hn;
    try done; rewrite ?filter_cons_True, ?filter_cons_False by done; [|done].
  csimpl. by rewrite (entry_name_join _ _ _ Hn).
Qed.

Lemma elem_of_candidates (m : gmap string inode) (d p : string) :
  p ∈ candidates d (dir_entries m d) ↔ is_Some (m !! p) ∧ is_image_path d p = true.
Proof.
  rewrite candidates_filter, list_elem_of_filter, list_elem_of_fmap.
  split.
  - intros [? [[k v] [-> Hkv]]]. split; [|done].
    apply elem_of_map_to_list in Hkv. by eexists.
  - intros [[v Hv] ?]. split; [done|]. exists (p, v). split; [done|].
    by apply elem_of_map_to_list.
Qed.


(** ** Sorting by key *)

Lemma insert_by_key_perm x l : insert_by_key x l ≡ₚ x :: l.
Proof.
  induction l as [|y l IH]; simpl; [done|].
  destruct (x.1 <=? y.1)%Z; [done|]. rewrite IH. apply Permutation_swap.
Qed.

Lemma sort_by_key_perm l : sort_by_key l ≡ₚ l.
Proof.
  induction l as [|x l IH]; simpl; [done|].
  by rewrite insert_by_key_perm, IH.
Qed.







(** ** Reading creation times *)

Lemma with_ctime_world paths w :
  (with_ctime paths w).2 = w.
Proof.
  induction paths as [|p paths IH]; [done|].
  simpl. unfold bind, os_path_getctime, get_fs, bind. simpl.
  destruct (fs w !! p); simpl; [|done].
  destruct (with_ctime paths w) as [[ks|e] w']; simpl in *; by subst.
Qed.

Lemma with_ctime_run paths w :
  (∀ p, p ∈ paths → is_Some (fs w !! p)) →
  with_ctime paths w = (Ok ((λ p, (ctime_of (fs w) p, p)) <$> paths), w).
Proof.
  induction paths as [|p paths IH]; intros Hp; [done|].
  simpl. unfold bind, os_path_getctime, get_fs, bind. simpl.
  destruct (Hp p) as [i Hi]; [left|].
  rewrite Hi. simpl. rewrite IH by (intros; apply Hp; by right).
  unfold ctime_of. by rewrite Hi.
Qed.

Lemma sorted_by_ctime_world paths w : (sorted_by_ctime paths w).2 = w.
Proof.
  unfold sorted_by_ctime, bind. pose proof (with_ctime_world paths w) as H.
  by destruct (with_ctime paths w) as [[ks|e] w'].
Qed.

Lemma sorted_by_ctime_run paths w :
  (∀ p, p ∈ paths → is_Some (fs w !! p)) →
  sorted_by_ctime paths w = (Ok (sorted_paths (fs w) paths), w).
Proof.
  intros Hp. unfold sorted_by_ctime, bind. by rewrite with_ctime_run.
Qed.

Lemma with_ctime_paths paths w ks w' :
  with_ctime paths w = (Ok ks, w') → ks.*2 = paths.
Proof.
  revert ks w'; induction paths as [|p paths IH]; intros ks w'; simpl.
  { by intros [= <- _]. }
  unfold bind, os_path_getctime, get_fs, bind. simpl.
  destruct (fs w !! p); simpl; [|done].
  destruct (with_ctime paths w) as [[ks'|e] w1] eqn:Hk; simpl; [|done].
  intros [= <- _]. csimpl. by rewrite (IH _ _ eq_refl).
Qed.

Lemma sorted_by_ctime_perm paths w files w' :
  sorted_by_ctime paths w = (Ok files, w') → files ≡ₚ paths.
Proof.
  unfold sorted_by_ctime, bind.
  destruct (with_ctime paths w) as [[ks|e] w1] eqn:Hk; simpl; [|done].
  intros [= <- _]. rewrite sort_by_key_perm. by rewrite (with_ctime_paths _ _ _ _ Hk).
Qed.

Lemma bind_eq {A B} (m : M A) (k : A → M B) w :
  bind m k w = match m w with
               | (Ok a, w') => k a w'
               | (Raise e, w') => (Raise e, w')
               end.
Proof. reflexivity. Qed.

Lemma os_listdir_cases d w :
  (st_kind <$> fs w !! d = Some Directory
   ∧ os_listdir d w = (Ok (dir_entries (fs w) d), w))
  ∨ ∃ e, os_listdir d w = (Raise e, w).
Proof.
  unfold os_listdir. cbn.
  destruct (st_kind <$> fs w !! d) as [[]|]; cbn; eauto.
Qed.

Section DiskGuard.
Context (env : Env).

(** ** [os.remove] *)

Lemma os_remove_ok p w :
  removable env (fs w) p →
  os_remove env p w = (Ok tt, {| fs := delete p (fs w); log := EvRemove p :: log w |}).
Proof. intros Hr. unfold os_remove. cbn. by rewrite Hr. Qed.

Lemma os_remove_fails p w e :
  unlink_error (unlink_denied env) (fs w) p = Some e →
  os_remove env p w = (Raise e, {| fs := fs w; log := EvRemove p :: log w |}).
Proof. intros Hr. unfold os_remove. cbn. by rewrite Hr. Qed.

Lemma os_remove_cases p w :
  os_remove env p w = (Ok tt, {| fs := delete p (fs w); log := EvRemove p :: log w |})
  ∨ ∃ e, os_remove env p w = (Raise e, {| fs := fs w; log := EvRemove p :: log w |}).
Proof.
  destruct (unlink_error (unlink_denied env) (fs w) p) as [e|] eqn:Hr.
  - right. exists e. by apply os_remove_fails.
  - left. by apply os_remove_ok.
Qed.


Lemma used_percentage_cases r w :
  (total r ≠ 0%Z ∧ used_percentage r w = (Ok (percent r), w))
  ∨ (total r = 0%Z ∧ used_percentage r w = (Raise ZeroDivisionError, w)).
Proof.
  unfold used_percentage. destruct (Z.eqb_spec (total r) 0); [right|left]; done.
Qed.

Lemma used_percentage_ok r w :
  total r ≠ 0%Z → used_percentage r w = (Ok (percent r), w).
Proof. intros. by destruct (used_percentage_cases r w) as [[_ ->]|[? _]]. Qed.


(** Whatever happens, the eviction loop only ever unlinks files of its list,
    and only logs removals, prints and disk readings. *)
Lemma evict_frame thr files pct w :
  let w' := (evict env thr files pct w).2 in
  (∃ evs, log w' = evs ++ log w ∧ Forall (guard_event files) evs) ∧
  ∀ p, fs w' !! p = fs w !! p ∨ (fs w' !! p = None ∧ p ∈ files).
Proof.
  revert pct w. induction files as [|f files IH]; intros pct w; simpl.
  { split; [by exists []|by left]. }
  destruct (exceeds pct thr); simpl; [|split; [by exists []|by left]].
  rewrite bind_eq.
  destruct (os_remove_cases f w) as [->|[e ->]]; simpl.
  2:{ split; [|by left]. exists [EvRemove f]. split; [done|].
      constructor; [by left|done]. }
  cbn. rewrite bind_eq.
  match goal with |- context [used_percentage ?r ?w1] =>
    destruct (used_percentage_cases r w1) as [[_ ->]|[_ ->]]; cbn;
    [destruct (IH (percent r) w1) as [(evs & Hl & He) Hf]|] end.
  - split.
    + eexists (evs ++ [_; _; _]). rewrite Hl. simpl. rewrite <- app_assoc. split; [done|].
      apply Forall_app. split.
      * eapply Forall_impl; [done|]. intros [] ?; simpl in *; try done. by right.
      * repeat constructor. 
    + intros p. destruct (Hf p) as [->|[-> ?]]; simpl.
      * destruct (decide (p = f)) as [->|]; 
          [right; rewrite lookup_delete_eq; split; [done|by left] | left; by rewrite lookup_delete_ne].
      * right. split; [done|by right].
  - split.
    + eexists [_; _; _]. split; [done|]. repeat constructor.
    + intros p. destruct (decide (p = f)) as [->|]; 
          [right; rewrite lookup_delete_eq; split; [done|by left] | left; by rewrite lookup_delete_ne].
Qed.



(** Whatever happens, the guard only ever unlinks [.jpg] entries of the
    directory it was given. *)
Lemma manage_disk_usage_frame d thr w :
  let w' := (manage_disk_usage env d thr w).2 in
  let cands := candidates d (dir_entries (fs w) d) in
  (∃ evs, log w' = evs ++ log w ∧ Forall (guard_event cands) evs) ∧
  ∀ p, fs w' !! p = fs w !! p ∨ (fs w' !! p = None ∧ p ∈ cands).
Proof.
  intros w' cands. subst w'. unfold manage_disk_usage.
  rewrite bind_eq. cbn. rewrite bind_eq.
  match goal with |- context [used_percentage ?r ?w1] =>
    destruct (used_percentage_cases r w1) as [[_ ->]|[_ ->]]; cbn end.
  2:{ split; [|by left]. eexists [_]. split; [done|]. by repeat constructor. }
  destruct (exceeds _ thr); cbn.
  2:{ split; [|by left]. eexists [_]. split; [done|]. by repeat constructor. }
  rewrite bind_eq.
  match goal with |- context [os_listdir d ?w1] =>
    destruct (os_listdir_cases d w1) as [[_ ->]|[e ->]]; cbn end.
  2:{ split; [|by left]; eexists [_; _]; split; [done|]; by repeat constructor. }
  fold cands. rewrite bind_eq.
  match goal with |- context [sorted_by_ctime ?ps ?w1] =>
    pose proof (sorted_by_ctime_world ps w1) as Hw;
    destruct (sorted_by_ctime ps w1) as [[files|e] w2] eqn:Hs; simpl in Hw; subst w2
  end.
  2:{ split; [|by left]; eexists [_; _]; split; [done|]; by repeat constructor. }
  apply sorted_by_ctime_perm in Hs.
  match goal with |- context [evict env thr files ?q ?w1] =>
    destruct (evict_frame thr files q w1) as [(evs & Hl & He) Hf] end.
  split.
  - eexists (evs ++ [_; _]). rewrite Hl. simpl. rewrite <- app_assoc. split; [done|].
    apply Forall_app. split; [|by repeat constructor].
    eapply Forall_impl; [done|]. intros [] ?; simpl in *; try done. by rewrite <- Hs.
  - intros p. destruct (Hf p) as [?|[? ?]]; [by left|right]. by rewrite <- Hs.
Qed.
End DiskGuard.

Lemma history_app evs w w' :
  log w' = evs ++ log w → history w' = history w ++ reverse evs.
Proof. unfold history. intros ->. by rewrite reverse_app. Qed.

Section DiskGuardClaims.
Context (env : Env).



Lemma is_image_path_inv d p :
  is_image_path d p = true →
  ∃ n, p = join d n ∧ n ≠ "" ∧ has_char slash n = false ∧ endswith ".jpg" n = true.
Proof.
  unfold is_image_path. destruct (entry_name d p) as [n|] eqn:Hn; [|done].
  intros He. exists n. split; [by rewrite (entry_name_join _ _ _ Hn)|].
  unfold entry_name in Hn. destruct (strip_prefix _ _) as [n'|]; [|done].
  destruct (String.eqb_spec n' ""); [done|].
  destruct (has_char slash n') eqn:Hc; [done|]. simpl in Hn. by simplify_eq.
Qed.

Lemma not_image_path d n :
  startswith "/" n = false → endswith ".jpg" n = false →
  is_image_path d (join d n) = false.
Proof.
  intros Hs He. unfold is_image_path.
  destruct (entry_name d (join d n)) as [n'|] eqn:Hn; [|done].
  by rewrite (entry_name_of_join _ _ _ Hs Hn).
Qed.

(** C6.  Whatever the guard does, and however it ends, every path it removes
    is an existing entry of the given directory whose name ends in [.jpg];
    [metadata.csv] and [README.md] of that directory are never touched. *)
Theorem disk_guard_only_deletes_images directory threshold w :
  let w' := (manage_disk_usage env directory threshold w).2 in
  (∀ p, fs w' !! p = fs w !! p
        ∨ (fs w' !! p = None ∧ is_Some (fs w !! p) ∧
           ∃ n, p = join directory n ∧ n ≠ "" ∧ has_char slash n = false
                ∧ endswith ".jpg" n = true)) ∧
  (∃ evs, history w' = history w ++ evs ∧
          ∀ p, EvRemove p ∈ evs →
               is_Some (fs w !! p) ∧
               ∃ n, p = join directory n ∧ n ≠ "" ∧ has_char slash n = false
                    ∧ endswith ".jpg" n = true) ∧
  fs w' !! join directory "metadata.csv" = fs w !! join directory "metadata.csv" ∧
  fs w' !! join directory "README.md" = fs w !! join directory "README.md".
Proof.
  intros w'. destruct (manage_disk_usage_frame env directory threshold w)
    as [(evs & Hl & He) Hf]. fold w' in Hl, Hf.
  assert (Hkeep : ∀ n, startswith "/" n = false → endswith ".jpg" n = false →
            fs w' !! join directory n = fs w !! join directory n).
  { intros n Hs Hj. destruct (Hf (join directory n)) as [?|[_ Hc]]; [done|].
    apply elem_of_candidates in Hc as [_ Hc]. by rewrite not_image_path in Hc. }
  split; [|split; [|split; by apply Hkeep]].
  - intros p. destruct (Hf p) as [?|[? Hc]]; [by left|right].
    apply elem_of_candidates in Hc as [? Hc]. eauto using is_image_path_inv.
  - exists (reverse evs). split; [by apply history_app|].
    intros p Hp. rewrite elem_of_reverse in Hp.
    rewrite Forall_forall in He. apply He in Hp. simpl in Hp.
    apply elem_of_candidates in Hp as [? Hc]. eauto using is_image_path_inv.
Qed.

(** C7, as the code has it.  A removal that fails raises out of the eviction
    loop and out of [manage_disk_usage] at once: the file system is left as
    it was at that point and no later candidate is tried.  First for the
    oldest candidate of a call, then for any pass of the loop. *)
Theorem disk_guard_deletion_failure_propagates directory threshold w p rest e :
  let r0 := disk env (now w) in
  let cands := candidates directory (dir_entries (fs w) directory) in
  total r0 ≠ 0%Z →
  exceeds (percent r0) threshold = true →
  st_kind <$> fs w !! directory = Some Directory →
  sorted_paths (fs w) cands = p :: rest →
  unlink_error (unlink_denied env) (fs w) p = Some e →
  manage_disk_usage env directory threshold w
  = (Raise e,
     {| fs := fs w;
        log := EvRemove p
               :: EvPrint "Disk usage exceeded threshold. Deleting oldest files..."
               :: EvDiskUsage r0 :: log w |}) ∧
  (∀ q files pct w1 e1,
     exceeds pct threshold = true →
     unlink_error (unlink_denied env) (fs w1) q = Some e1 →
     evict env threshold (q :: files) pct w1
     = (Raise e1, {| fs := fs w1; log := EvRemove q :: log w1 |})).
Proof.
  intros r0 cands Ht0 Hx Hdir Hsort Hrm.
  assert (Hev : ∀ q files pct w1 e1,
     exceeds pct threshold = true →
     unlink_error (unlink_denied env) (fs w1) q = Some e1 →
     evict env threshold (q :: files) pct w1
     = (Raise e1, {| fs := fs w1; log := EvRemove q :: log w1 |})).
  { intros q files pct w1 e1 Hq Hn. simpl.
    by rewrite Hq, bind_eq, (os_remove_fails _ _ _ _ Hn). }
  split; [|done].
  unfold manage_disk_usage. rewrite bind_eq. cbn. fold r0.
  rewrite bind_eq, used_percentage_ok by done. rewrite Hx. cbn.
  rewrite bind_eq.
  match goal with |- context [os_listdir directory ?w2] =>
    destruct (os_listdir_cases directory w2) as [[_ ->]|[e' He']] end.
  2:{ unfold os_listdir in He'. cbn in He'. rewrite Hdir in He'. done. }
  cbn. fold cands. rewrite bind_eq, sorted_by_ctime_run.
  2:{ intros q Hq. by apply elem_of_candidates in Hq as [? _]. }
  cbn. rewrite Hsort. by apply Hev.
Qed.
End DiskGuardClaims.

Arguments manage_disk_usage : simpl never.
Arguments unlink_error : simpl never.
Arguments loop_body : simpl never.
Arguments Ascii.eqb : simpl never.
Arguments String.eqb : simpl never.

(** ** Reading integers *)



Lemma lstrip_id l : Forall (λ c, is_space c = false) l → lstrip l = l.
Proof. destruct 1 as [|c l Hc _]; simpl; [done|by rewrite Hc]. Qed.





Lemma digit_not_char c (x : ascii) :
  is_digit c = true → is_digit x = false → Ascii.eqb x c = false.
Proof. intros Hc Hx. destruct (Ascii.eqb_spec x c) as [->|]; congruence. Qed.


Arguments manage_disk_usage : simpl never.
Arguments unlink_error : simpl never.
Arguments loop_body : simpl never.
Arguments Ascii.eqb : simpl never.
Arguments String.eqb : simpl never.
Arguments is_digit : simpl never.
Arguments digit : simpl never.

(** ** Timestamps *)

Lemma is_digit_digit n : is_digit (digit n) = true.
Proof.
  unfold is_digit, digit.
  assert (0 ≤ n mod 10 < 10)%Z by (apply Z.mod_pos_bound; lia).
  rewrite nat_ascii_embedding by lia.
  apply andb_true_iff. split; [apply Nat.leb_le|apply Nat.leb_le]; lia.
Qed.

Lemma dec_go_S fuel n acc :
  dec_go (S fuel) n acc
  = if (n / 10 =? 0)%Z then String (digit n) acc
    else dec_go fuel (n / 10) (String (digit n) acc).
Proof. reflexivity. Qed.

Lemma dec_1 n : (0 ≤ n < 10)%Z → dec n = String (digit n) "".
Proof.
  intros Hn. unfold dec. rewrite dec_go_S.
  assert (n / 10 = 0)%Z as -> by (Z.to_euclidean_division_equations; lia). done.
Qed.

Lemma dec_2 n :
  (10 ≤ n < 100)%Z → dec n = String (digit (n / 10)) (String (digit n) "").
Proof.
  intros Hn. unfold dec.
  replace (Z.to_nat n) with (S (Z.to_nat n - 1)) by lia.
  rewrite !dec_go_S.
  destruct (Z.eqb_spec (n / 10) 0) as [H0|_].
  { exfalso. revert H0. Z.to_euclidean_division_equations. lia. }
  assert (n / 10 / 10 = 0)%Z as -> by (Z.to_euclidean_division_equations; lia). done.
Qed.

Lemma dec_4 n :
  (1000 ≤ n < 10000)%Z →
  dec n = String (digit (n / 10 / 10 / 10))
            (String (digit (n / 10 / 10)) (String (digit (n / 10)) (String (digit n) ""))).
Proof.
  intros Hn. unfold dec.
  replace (Z.to_nat n) with (S (S (S (Z.to_nat n - 3)))) by lia.
  rewrite !dec_go_S.
  destruct (Z.eqb_spec (n / 10) 0) as [H0|_].
  { exfalso. revert H0. Z.to_euclidean_division_equations. lia. }
  destruct (Z.eqb_spec (n / 10 / 10) 0) as [H0|_].
  { exfalso. revert H0. Z.to_euclidean_division_equations. lia. }
  destruct (Z.eqb_spec (n / 10 / 10 / 10) 0) as [H0|_].
  { exfalso. revert H0. Z.to_euclidean_division_equations. lia. }
  assert (n / 10 / 10 / 10 / 10 = 0)%Z as ->
    by (Z.to_euclidean_division_equations; lia).
  done.
Qed.

Lemma pad2_shape n :
  (0 ≤ n < 100)%Z → pad2 n = String (digit (n / 10)) (String (digit n) "").
Proof.
  intros Hn. unfold pad2. destruct (Z.ltb_spec n 10).
  - rewrite dec_1 by lia.
    assert (n / 10 = 0)%Z as -> by (Z.to_euclidean_division_equations; lia).
    reflexivity.
  - by rewrite dec_2 by lia.
Qed.

Lemma app_empty_l (s : string) : "" +:+ s = s.
Proof. reflexivity. Qed.

Lemma strftime_shape t :
  wf_time t →
  strftime_YmdHMS t
  = String (digit (tm_year t / 10 / 10 / 10)) (String (digit (tm_year t / 10 / 10))
     (String (digit (tm_year t / 10)) (String (digit (tm_year t))
     (String (digit (tm_mon t / 10)) (String (digit (tm_mon t))
     (String (digit (tm_mday t / 10)) (String (digit (tm_mday t))
     (String "-"
     (String (digit (tm_hour t / 10)) (String (digit (tm_hour t))
     (String (digit (tm_min t / 10)) (String (digit (tm_min t))
     (String (digit (tm_sec t / 10)) (String (digit (tm_sec t)) "")))))))))))))).
Proof.
  intros (Hy & Hm & Hd & HH & HM & HS). unfold strftime_YmdHMS.
  rewrite dec_4 by lia. rewrite !pad2_shape by lia.
  repeat first [rewrite app_cons | rewrite app_empty_l]. done.
Qed.

Lemma strftime_timestamp_ok t : wf_time t → timestamp_ok (strftime_YmdHMS t) = true.
Proof.
  intros Ht. rewrite strftime_shape by done. unfold timestamp_ok.
  cbn [digits_prefix]. by rewrite !is_digit_digit.
Qed.









Lemma endswith_refl s : endswith s s = true.
Proof. destruct s; simpl; by rewrite ?String.eqb_refl. Qed.

Lemma endswith_app suf a : endswith suf (a +:+ suf) = true.
Proof.
  induction a as [|x a IH]; [apply endswith_refl|].
  rewrite app_cons. simpl. rewrite IH. apply orb_true_r.
Qed.

Arguments manage_disk_usage : simpl never.
Arguments unlink_error : simpl never.

Lemma while_true_S fuel (body : M signal) n w :
  while_true (S fuel) body n w
  = match body w with
    | (Ok Break, w') => (Ok Exited, w')
    | (Ok Continue, w') => while_true fuel body n w'
    | (Ok FallThrough, w') => while_true fuel body (S n) w'
    | (Raise e, w') => (Raise e, w')
    end.
Proof. simpl. rewrite bind_eq. by destruct (body w) as [[[]|e] w']. Qed.

Section Loop.
Context (env : Env).

Lemma try_except_eq {A} (m : M A) c h w :
  try_except m c h w = match m w with
                       | (Raise e, w') => if c e then h e w' else (Raise e, w')
                       | r => r
                       end.
Proof. reflexivity. Qed.

(** The three ways the [try] block can go. *)
Lemma capture_and_save_cases p w :
  match camera_capture env (now w) with
  | CaptureRaises msg =>
      capture_and_save env p w
      = (Ok true, {| fs := fs w; log := [failure_log msg; EvCapture] ++ log w |})
  | Captured f =>
      let f' := rotate_90_clockwise f in
      match cv2_encode env (2 + now w) with
      | ImwriteRaises msg =>
          capture_and_save env p w
          = (Ok true, {| fs := fs w;
                         log := [failure_log msg; EvImwrite p f'; EvRotate; EvCapture]
                                ++ log w |})
      | _ =>
          capture_and_save env p w
          = (Ok false, {| fs := imwrite_fs env (2 + now w) (fs w) p f';
                          log := [EvImwrite p f'; EvRotate; EvCapture] ++ log w |})
      end
  end.
Proof.
  unfold capture_and_save, imwrite_fs, failure_log.
  rewrite try_except_eq, bind_eq. cbn.
  destruct (camera_capture env _) as [f|msg]; cbn; [|done].
  unfold cv2_imwrite. 
  repeat first [rewrite bind_eq | progress cbn].
  destruct (cv2_encode env _) as [| |msg]; cbn; [|done|done].
  rewrite ?bind_eq. cbn. by destruct (open_error (fs w) p).
Qed.

Lemma persist_and_sync_cases s ts p w :
  match open_error (fs w) (metadata_path s) with
  | Some e =>
      persist_and_sync env s ts p w
      = (Raise e, {| fs := fs w;
                     log := EvAppend (metadata_path s) (ledger_line ts p) :: log w |})
  | None =>
      let m2 := append_fs env (now w) (fs w) (metadata_path s) (ledger_line ts p) in
      match unlink_error (unlink_denied env) m2 p with
      | Some e =>
          persist_and_sync env s ts p w
          = (Raise e, {| fs := m2; log := tail (sync_log s ts p) ++ log w |})
      | None =>
          persist_and_sync env s ts p w
          = manage_disk_usage env (output_dir s) default_threshold
              {| fs := delete p m2; log := sync_log s ts p ++ log w |}
      end
  end.
Proof.
  unfold persist_and_sync, append_text, os_remove, append_fs, sync_log, ledger_line.
  repeat first [rewrite bind_eq | progress cbn].
  destruct (open_error (fs w) (metadata_path s)) as [e|]; cbn; [done|].
  repeat first [rewrite bind_eq | progress cbn].
  destruct (unlink_error _ _ p) as [e|]; cbn; [done|].
  repeat first [rewrite bind_eq | progress cbn].
  by destruct (manage_disk_usage _ _ _ _) as [[[]|] ?].
Qed.

(** One pass, as its three blocks. *)
Lemma loop_body_eq s w :
  let ts := strftime_YmdHMS (clock env (now w)) in
  let p := image_path_at env s w in
  loop_body env s w
  = match capture_and_save env p {| fs := fs w; log := EvStrftime ts :: log w |} with
    | (Ok true, w2) => (Ok Continue, w2)
    | (Ok false, w2) =>
        match persist_and_sync env s ts p w2 with
        | (Ok _, w3) =>
            let w4 := {| fs := fs w3; log := EvSleep (interval s) :: log w3 |} in
            if (interval s <? 0)%Z then (Raise sleep_error, w4) else (Ok FallThrough, w4)
        | (Raise e, w3) => (Raise e, w3)
        end
    | (Raise e, w2) => (Raise e, w2)
    end.
Proof.
  intros ts p. subst p. unfold loop_body, image_path_at. rewrite bind_eq. cbn.
  fold ts. set (p := join _ _). rewrite ?bind_eq.
  destruct (capture_and_save env p _) as [[[]|e] w2]; cbn; try done.
  rewrite ?bind_eq.
  destruct (persist_and_sync env s ts p w2) as [[[]|e] w3]; cbn; try done.
  unfold time_sleep. rewrite ?bind_eq. cbn.
  by destruct (interval s <? 0)%Z.
Qed.

(** What a pass that reaches the end of the body went through. *)
Lemma loop_body_fallthrough s w w' :
  loop_body env s w = (Ok FallThrough, w') →
  let ts := strftime_YmdHMS (clock env (now w)) in
  let p := image_path_at env s w in
  ∃ f w3,
    camera_capture env (1 + now w) = Captured f ∧
    let f' := rotate_90_clockwise f in
    let m1 := imwrite_fs env (3 + now w) (fs w) p f' in
    let m2 := append_fs env (4 + now w) m1 (metadata_path s) (ledger_line ts p) in
    open_error m1 (metadata_path s) = None ∧
    unlink_error (unlink_denied env) m2 p = None ∧
    manage_disk_usage env (output_dir s) default_threshold
      {| fs := delete p m2;
         log := sync_log s ts p ++ [EvImwrite p f'; EvRotate; EvCapture; EvStrftime ts]
                ++ log w |}
    = (Ok tt, w3) ∧
    (interval s <? 0)%Z = false ∧
    w' = {| fs := fs w3; log := EvSleep (interval s) :: log w3 |}.
Proof.
  intros H ts p. revert H. rewrite loop_body_eq. fold ts. fold p.
  unfold image_path_at in p.
  set (w1 := {| fs := fs w; log := EvStrftime ts :: log w |}).
  pose proof (capture_and_save_cases p w1) as Hc. cbn in Hc. 
  destruct (camera_capture env _) as [f|msg]; [|by rewrite Hc].
  cbn in Hc. 
  assert (Hcs : capture_and_save env p w1
          = (Ok false, {| fs := imwrite_fs env (3 + now w) (fs w) p (rotate_90_clockwise f);
                 log := EvImwrite p (rotate_90_clockwise f) :: EvRotate :: EvCapture
                        :: EvStrftime ts :: log w |})
          ∨ ∃ w2, capture_and_save env p w1 = (Ok true, w2)).
  { destruct (cv2_encode env _); eauto. }
  clear Hc. destruct Hcs as [->|[w2 ->]]; [|done].
  set (m1 := imwrite_fs _ _ _ _ _).
  match goal with |- context [persist_and_sync env s ts p ?w2] =>
    pose proof (persist_and_sync_cases s ts p w2) as Hp end.
  cbn in Hp. fold m1 in Hp.
  destruct (open_error m1 (metadata_path s)) as [e|] eqn:Hopen; [by rewrite Hp|].
  set (m2 := append_fs _ _ _ _ _) in *.
  destruct (unlink_error _ m2 p) as [e|] eqn:Hrm; rewrite Hp; [done|]. clear Hp.
  match goal with |- context [manage_disk_usage env ?d ?t ?w2] =>
    destruct (manage_disk_usage env d t w2) as [[[]|e] w3] eqn:Hm; [|done] end.
  cbn. destruct (interval s <? 0)%Z eqn:Hi; [done|].
  intros [= <-]. by exists f, w3.
Qed.

(** C1.  A pass that reaches the end of the body made its calls in this
    order: timestamp, capture, rotation, image write to
    [<output_dir>/<timestamp>.jpg], ledger append, git add, git commit, git
    push, local delete, disk guard on the output directory, sleep.  The
    ledger line is appended before git is run, and the timestamp has the
    shape [YYYYMMDD-HHMMSS] whenever the clock reading is well formed. *)
Theorem capture_loop_step_order s w w' :
  loop_body env s w = (Ok FallThrough, w') →
  let ts := strftime_YmdHMS (clock env (now w)) in
  let p := join (output_dir s) (ts +:+ ".jpg") in
  ∃ f w_guard w_after guard_calls,
    camera_capture env (1 + now w) = Captured f ∧
    history w_guard
    = history w
      ++ [EvStrftime ts;
          EvCapture;
          EvRotate;
          EvImwrite p (rotate_90_clockwise f);
          EvAppend (metadata_path s) (ts +:+ "," +:+ p +:+ nl);
          EvRun ["git"; "add"; p; metadata_path s] (repo_path s);
          EvRun ["git"; "commit"; "-m"; "Add image and metadata for " +:+ ts] (repo_path s);
          EvRun ["git"; "push"] (repo_path s);
          EvPrint ("Captured and uploaded image at " +:+ ts);
          EvRemove p;
          EvPrint ("Deleted local image at " +:+ p)] ∧
    manage_disk_usage env (output_dir s) default_threshold w_guard = (Ok tt, w_after) ∧
    history w_after = history w_guard ++ guard_calls ∧
    history w' = history w_after ++ [EvSleep (interval s)] ∧
    (wf_time (clock env (now w)) → timestamp_ok ts = true).
Proof.
  intros H ts p.
  destruct (loop_body_fallthrough s w w' H) as (f & w3 & Hcap & _ & _ & Hm & _ & ->).
  fold ts in Hm. change (image_path_at env s w) with p in Hm.
  match type of Hm with manage_disk_usage _ _ _ ?wg = _ =>
    exists f, wg, w3;
    destruct (manage_disk_usage_frame env (output_dir s) default_threshold wg)
      as [(evs & Hl & _) _] end.
  rewrite Hm in Hl. simpl in Hl.
  exists (reverse evs). split; [done|]. split; [|split; [exact Hm|split; [|split]]].
  - by apply (history_app (sync_log s ts p ++ [_; _; _; _])).
  - by apply history_app.
  - by apply (history_app [_]).
  - apply strftime_timestamp_ok.
Qed.

Lemma evict_subprocess g thr files pct w :
  evict (with_subprocess env g) thr files pct w = evict env thr files pct w.
Proof.
  revert pct w. induction files as [|f files IH]; intros pct w; [done|].
  simpl. destruct (exceeds pct thr); [|done].
  rewrite !bind_eq. change (os_remove (with_subprocess env g) f w) with (os_remove env f w).
  destruct (os_remove env f w) as [[[]|e] w1]; [|done].
  cbn. rewrite !bind_eq.
  destruct (used_percentage _ _) as [[q|e] w2]; [|done]. apply IH.
Qed.

Lemma manage_disk_usage_subprocess g d thr w :
  manage_disk_usage (with_subprocess env g) d thr w = manage_disk_usage env d thr w.
Proof.
  unfold manage_disk_usage. rewrite !bind_eq. cbn. rewrite !bind_eq.
  destruct (used_percentage _ _) as [[q|e] w2]; [|done].
  destruct (exceeds q thr); [|done]. cbn. rewrite !bind_eq.
  destruct (os_listdir d _) as [[names|e] w3]; [|done].
  rewrite !bind_eq. destruct (sorted_by_ctime _ _) as [[files|e] w4]; [|done].
  apply evict_subprocess.
Qed.

Lemma persist_and_sync_subprocess g s ts p w :
  persist_and_sync (with_subprocess env g) s ts p w = persist_and_sync env s ts p w.
Proof.
  unfold persist_and_sync. rewrite !bind_eq.
  change (append_text (with_subprocess env g)) with (append_text env).
  destruct (append_text env _ _ w) as [[[]|e] w1]; [|done].
  cbn. rewrite !bind_eq.
  change (os_remove (with_subprocess env g)) with (os_remove env).
  destruct (os_remove env p _) as [[[]|e] w2]; [|done].
  cbn. apply manage_disk_usage_subprocess.
Qed.

Lemma loop_body_subprocess g s w :
  loop_body (with_subprocess env g) s w = loop_body env s w.
Proof.
  unfold loop_body. rewrite !bind_eq. cbn. rewrite !bind_eq.
  set (p := join _ _). set (ts := strftime_YmdHMS _).
  change (capture_and_save (with_subprocess env g) p) with (capture_and_save env p).
  destruct (capture_and_save env p _) as [[[]|e] w2]; [done| |done].
  rewrite !bind_eq, persist_and_sync_subprocess.
  by destruct (persist_and_sync env s ts p w2) as [[[]|e] w3].
Qed.

(** C2.  After a pass that reaches the end of the body the image file of
    that pass is gone, and the pass ends in the very same world whatever the
    three git commands return. *)
Theorem local_image_deleted_whatever_git_returns s w w' :
  loop_body env s w = (Ok FallThrough, w') →
  let p := join (output_dir s) (strftime_YmdHMS (clock env (now w)) +:+ ".jpg") in
  fs w' !! p = None ∧
  ∀ g, loop_body (with_subprocess env g) s w = (Ok FallThrough, w').
Proof.
  intros H p. split; [|intros g; by rewrite loop_body_subprocess].
  destruct (loop_body_fallthrough s w w' H) as (f & w3 & _ & _ & _ & Hm & _ & ->).
  change (image_path_at env s w) with p in Hm.
  match type of Hm with manage_disk_usage _ _ _ ?wg = _ =>
    destruct (manage_disk_usage_frame env (output_dir s) default_threshold wg)
      as [_ Hf] end.
  rewrite Hm in Hf. simpl in Hf. simpl.
  destruct (Hf p) as [->|[? _]]; [|done]. apply lookup_delete_eq.
Qed.

(** C3.  When the capture or the image write raises, the pass logs the
    failure and ends in [continue]: the file system is unchanged, the only
    calls made are the timestamp, the capture, possibly the rotation and the
    write attempt, and the failure print (no ledger append, no git, no
    delete, no disk guard, no sleep), and the loop goes straight on to its
    next pass with its counters untouched. *)
Theorem capture_failure_restarts_pass s w msg :
  let ts := strftime_YmdHMS (clock env (now w)) in
  let p := join (output_dir s) (ts +:+ ".jpg") in
  (camera_capture env (1 + now w) = CaptureRaises msg
   ∨ ∃ f, camera_capture env (1 + now w) = Captured f
          ∧ cv2_encode env (3 + now w) = ImwriteRaises msg) →
  ∃ w' attempted,
    loop_body env s w = (Ok Continue, w') ∧
    fs w' = fs w ∧
    history w'
    = history w ++ [EvStrftime ts; EvCapture] ++ attempted
      ++ [EvPrint ("Failed to capture or save image: " +:+ msg)] ∧
    (attempted = [] ∨ ∃ f, attempted = [EvRotate; EvImwrite p (rotate_90_clockwise f)]) ∧
    ∀ fuel n,
      while_true (S fuel) (loop_body env s) n w = while_true fuel (loop_body env s) n w'.
Proof.
  intros ts p Hfail.
  set (w1 := {| fs := fs w; log := EvStrftime ts :: log w |}).
  pose proof (capture_and_save_cases p w1) as Hc. cbn in Hc.
  pose proof (loop_body_eq s w) as Hb. lazy zeta in Hb. fold ts in Hb.
  change (image_path_at env s w) with p in Hb. fold w1 in Hb.
  destruct Hfail as [Hcap|(f & Hcap & Henc)]; cbn in Hcap; rewrite Hcap in Hc.
  - rewrite Hc in Hb. eexists. exists []. split; [exact Hb|]. split; [done|].
    split; [by apply (history_app [_; _; _])|]. split; [by left|].
    intros fuel n. by rewrite while_true_S, Hb.
  - cbn in Henc, Hc. rewrite Henc in Hc. rewrite Hc in Hb.
    eexists. eexists [_; _]. split; [exact Hb|]. split; [done|].
    split; [by apply (history_app [_; _; _; _; _])|]. split; [right; by exists f|].
    intros fuel n. by rewrite while_true_S, Hb.
Qed.
End Loop.

Arguments manage_disk_usage : simpl never.
Arguments unlink_error : simpl never.
Arguments loop_body : simpl never.

(** ** Which calls a computation can make *)

Section EmitsOnly.
Context (P : event → Prop).

Lemma emits_only_ret {A} (a : A) : emits_only P (ret a).
Proof. intros w. by exists []. Qed.

Lemma emits_only_raise {A} e : emits_only P (raise e : M A).
Proof. intros w. by exists []. Qed.

Lemma emits_only_get_fs : emits_only P get_fs.
Proof. intros w. by exists []. Qed.

Lemma emits_only_get_now : emits_only P get_now.
Proof. intros w. by exists []. Qed.

Lemma emits_only_put_fs m : emits_only P (put_fs m).
Proof. intros w. by exists []. Qed.

Lemma emits_only_emit ev : P ev → emits_only P (emit ev).
Proof. intros Hev w. exists [ev]. split; [done|]. by constructor. Qed.

Lemma emits_only_bind {A B} (m : M A) (k : A → M B) :
  emits_only P m → (∀ a, emits_only P (k a)) → emits_only P (bind m k).
Proof.
  intros Hm Hk w. rewrite bind_eq. destruct (Hm w) as (evs & Hl & He).
  destruct (m w) as [[a|e] w1]; simpl in *; [|by exists evs].
  destruct (Hk a w1) as (evs' & Hl' & He'). exists (evs' ++ evs).
  rewrite Hl', Hl, app_assoc. split; [done|]. by apply Forall_app.
Qed.

Lemma emits_only_try_except {A} (m : M A) c h :
  emits_only P m → (∀ e, emits_only P (h e)) → emits_only P (try_except m c h).
Proof.
  intros Hm Hh w. rewrite try_except_eq. destruct (Hm w) as (evs & Hl & He).
  destruct (m w) as [[a|e] w1]; simpl in *; [by exists evs|].
  destruct (c e); [|by exists evs].
  destruct (Hh e w1) as (evs' & Hl' & He'). exists (evs' ++ evs).
  rewrite Hl', Hl, app_assoc. split; [done|]. by apply Forall_app.
Qed.

Lemma emits_only_while_true fuel body n :
  emits_only P body → emits_only P (while_true fuel body n).
Proof.
  intros Hb. revert n. induction fuel as [|fuel IH]; intros n; simpl.
  { apply emits_only_ret. }
  apply emits_only_bind; [done|]. intros []; auto using emits_only_ret.
Qed.
End EmitsOnly.

Create HintDb emits discriminated.
#[export] Hint Resolve emits_only_ret emits_only_raise emits_only_get_fs
  emits_only_get_now emits_only_put_fs : emits.

Ltac emits_step :=
  first
    [ solve [auto with emits]
    | apply emits_only_bind; [|intros ?]
    | apply emits_only_try_except; [|intros ?]
    | apply emits_only_emit; first [exact I | reflexivity | done]
    | match goal with
      | |- emits_only _ (match ?x with _ => _ end) => destruct x
      end ].

Ltac emits := repeat emits_step.

Section Quiet.
Context (env : Env).

Lemma evict_in_loop thr files pct : emits_only in_loop (evict env thr files pct).
Proof.
  revert pct. induction files as [|f files IH]; intros pct; simpl; [emits|].
  unfold os_remove, print, shutil_disk_usage, used_percentage. emits.
Qed.

Lemma with_ctime_in_loop paths : emits_only in_loop (with_ctime paths).
Proof.
  induction paths as [|p paths IH]; simpl; [emits|].
  unfold os_path_getctime. emits.
Qed.

Lemma manage_disk_usage_in_loop d thr : emits_only in_loop (manage_disk_usage env d thr).
Proof.
  pose proof with_ctime_in_loop. pose proof evict_in_loop.
  unfold manage_disk_usage, shutil_disk_usage, used_percentage, print, os_listdir,
    sorted_by_ctime.
  emits.
Qed.

Lemma loop_body_in_loop s : emits_only in_loop (loop_body env s).
Proof.
  pose proof manage_disk_usage_in_loop.
  unfold loop_body, time_strftime, capture_and_save, picam2_capture_array, cv2_rotate,
    cv2_imwrite, print, persist_and_sync, append_text, subprocess_run, os_remove,
    time_sleep.
  emits.
Qed.

Lemma bootstrap_in_loop argv : emits_only in_loop (bootstrap env argv).
Proof.
  unfold bootstrap, parse_args, picam2_call, print, time_strftime, os_path_exists,
    os_makedirs, write_text, subprocess_run.
  emits.
Qed.

(** The body never asks to leave the loop. *)
Lemma loop_body_never_breaks s w : (loop_body env s w).1 ≠ Ok Break.
Proof.
  rewrite loop_body_eq.
  destruct (capture_and_save env _ _) as [[[]|e] w2]; [done| |done].
  destruct (persist_and_sync env s _ _ w2) as [[[]|e] w3]; [|done].
  cbn. by destruct (interval s <? 0)%Z.
Qed.

Lemma while_true_never_exits fuel s n w :
  (while_true fuel (loop_body env s) n w).1 ≠ Ok Exited.
Proof.
  revert n w. induction fuel as [|fuel IH]; intros n w; [done|].
  rewrite while_true_S. pose proof (loop_body_never_breaks s w) as Hb.
  destruct (loop_body env s w) as [[[]|e] w1]; simpl in *; auto.
Qed.

(** C10.  The statements after the loop are never run: no run of the script,
    however long, leaves the loop normally, stops the camera or prints the
    final line. *)
Theorem post_loop_statements_unreachable fuel argv w :
  (main env fuel argv w).1 ≠ Ok Exited ∧
  ∃ evs,
    history (main env fuel argv w).2 = history w ++ evs ∧
    (EvCameraStop ∉ evs) ∧
    (EvPrint "Camera stopped." ∉ evs).
Proof.
  assert (Hmain : (main env fuel argv w).1 ≠ Ok Exited ∧
            ∃ evs, log (main env fuel argv w).2 = evs ++ log w ∧ Forall in_loop evs).
  { unfold main. rewrite bind_eq.
    destruct (bootstrap_in_loop argv w) as (evs1 & Hl1 & He1).
    destruct (bootstrap env argv w) as [[s|e] w1]; simpl in Hl1; [|by eauto].
    rewrite bind_eq.
    destruct (emits_only_while_true in_loop fuel _ 0 (loop_body_in_loop s) w1)
      as (evs2 & Hl2 & He2).
    pose proof (while_true_never_exits fuel s 0 w1) as Hx.
    destruct (while_true fuel (loop_body env s) 0 w1) as [[[|n]|e] w2]; simpl in *;
      [done| |].
    - split; [done|]. exists (evs2 ++ evs1). rewrite Hl2, Hl1, app_assoc.
      split; [done|]. by apply Forall_app.
    - split; [done|]. exists (evs2 ++ evs1). rewrite Hl2, Hl1, app_assoc.
      split; [done|]. by apply Forall_app. }
  destruct Hmain as [Hr (evs & Hl & He)]. split; [done|].
  exists (reverse evs). split; [by apply history_app|].
  rewrite Forall_forall in He.
  split; intros Hin%elem_of_reverse%He; done.
Qed.
End Quiet.

Arguments manage_disk_usage : simpl never.
Arguments unlink_error : simpl never.
Arguments loop_body : simpl never.
Arguments Ascii.eqb : simpl never.
Arguments String.eqb : simpl never.
Arguments is_digit : simpl never.
Arguments digit : simpl never.
Arguments percent : simpl never.
Arguments exceeds : simpl never.
Arguments join : simpl never.
Arguments strftime_YmdHMS : simpl never.
Arguments rotate_90_clockwise : simpl never.
Arguments dir_entries : simpl never.
Arguments candidates : simpl never.
Arguments open_error : simpl never.
Arguments ancestors : simpl never.
Arguments used_percentage : simpl never.
Arguments py_strip : simpl never.
Arguments readme_text : simpl never.
Arguments ledger_header : simpl never.
Arguments os_makedirs : simpl never.
Arguments os_path_exists : simpl never.
Arguments write_text : simpl never.
Arguments subprocess_run : simpl never.

(** ** Paths of a session *)

Lemma length_app (a b : string) :
  String.length (a +:+ b) = String.length a + String.length b.
Proof. induction a as [|c a IH]; [done|]. rewrite app_cons. simpl. by rewrite IH. Qed.

Lemma cuts_length acc s a :
  a ∈ cuts acc s → String.length a < String.length acc + String.length s.
Proof.
  revert acc. induction s as [|c s IH]; intros acc; simpl; [by intros ?%elem_of_nil|].
  assert (Hrest : a ∈ cuts (acc +:+ String c "") s →
            String.length a < String.length acc + S (String.length s)).
  { intros Ha%IH. rewrite length_app in Ha. simpl in Ha. lia. }
  destruct (Ascii.eqb c slash); [|done].
  intros [?|Ha]%elem_of_app; [by auto|]. apply list_elem_of_singleton in Ha as ->. lia.
Qed.

Lemma ancestors_length p a : a ∈ ancestors p → String.length a < String.length p.
Proof.
  unfold ancestors. intros [_ Ha]%list_elem_of_filter.
  rewrite elem_of_reverse in Ha. by apply cuts_length in Ha.
Qed.

Lemma join_length d n :
  startswith "/" n = false → String.length d + String.length n ≤ String.length (join d n).
Proof.
  intros Hn. unfold join. rewrite Hn.
  destruct (_ || _); rewrite !length_app; simpl; lia.
Qed.

Lemma join_inj d a b :
  startswith "/" a = false → startswith "/" b = false → join d a = join d b → a = b.
Proof.
  intros Ha Hb. rewrite (join_prefix _ _ Ha), (join_prefix _ _ Hb).
  apply String.app_inj.
Qed.

(** [os.makedirs] never touches a path that is neither the directory asked
    for nor one of its ancestors, and never replaces what is there. *)
Lemma mkdirs_lookup t todo m m' q :
  mkdirs t todo m = Ok m' → q ∉ todo → m' !! q = m !! q.
Proof.
  revert m. induction todo as [|a todo IH]; intros m; simpl.
  { by intros [= ->]. }
  intros Hm Hq. apply not_elem_of_cons in Hq as [Hqa Hq].
  destruct (st_kind <$> m !! a) as [[]|]; [done|by apply IH|].
  rewrite (IH _ Hm Hq). by apply lookup_insert_ne.
Qed.

Section Ledger.
Context (env : Env).

Lemma os_path_exists_eq p w :
  os_path_exists p w = (Ok (match fs w !! p with Some _ => true | None => false end), w).
Proof. reflexivity. Qed.

Lemma subprocess_run_eq argv cwd w :
  subprocess_run env argv cwd w
  = (Ok (subprocess env (now w)), {| fs := fs w; log := EvRun argv cwd :: log w |}).
Proof. reflexivity. Qed.

Lemma os_makedirs_lookup p w w' q :
  os_makedirs env p w = (Ok tt, w') →
  String.length p < String.length q →
  fs w' !! q = fs w !! q.
Proof.
  unfold os_makedirs. rewrite !bind_eq. cbn.
  destruct (mkdirs _ _ _) as [m'|e] eqn:Hm; cbn; [|done].
  destruct (m' !! p) eqn:Hp; cbn; [done|].
  intros [= <-] Hlen. cbn.
  rewrite lookup_insert_ne by (intros ->; lia).
  apply (mkdirs_lookup _ _ _ _ _ Hm).
  intros Ha%ancestors_length. lia.
Qed.

Lemma write_text_ok p data w w' :
  write_text env p data w = (Ok tt, w') →
  fs w' = <[p := file_node (stamp env (now w)) data]> (fs w).
Proof.
  unfold write_text. rewrite !bind_eq. cbn.
  destruct (open_error (fs w) p); cbn; [done|]. by intros [= <-].
Qed.

(** What a bootstrap that returns has set up. *)
Lemma bootstrap_ok argv w0 s w1 :
  bootstrap env argv w0 = (Ok s, w1) →
  ∃ name secs z,
    positionals argv = Some [name; secs] ∧ py_int secs = Some z ∧
    let ts := strftime_YmdHMS (clock env (2 + now w0)) in
    output_dir s = "images/" +:+ name +:+ "_" +:+ ts ∧
    session_ok s ∧
    interval s = z ∧
    match fs w0 !! metadata_path s with
    | Some i => fs w1 !! metadata_path s = Some i
    | None => st_data <$> fs w1 !! metadata_path s = Some ledger_header
    end.
Proof.
  unfold bootstrap, parse_args. rewrite bind_eq.
  destruct (positionals argv) as [[|name [|secs [|]]]|] eqn:Hpos; try done.
  destruct (py_int secs) as [z|] eqn:Hint; [|done].
  unfold picam2_call. 
  repeat first [rewrite bind_eq | rewrite try_except_eq | progress cbn].
  destruct (camera_start env (now w0)); cbn; [done|].
  repeat first [rewrite bind_eq | rewrite try_except_eq | progress cbn].
  destruct (camera_start env (S (now w0))); cbn; [done|].
  repeat first [rewrite bind_eq | rewrite try_except_eq | progress cbn].
  set (ts := strftime_YmdHMS _). set (out := "images/" +:+ name +:+ "_" +:+ ts).
  set (mp := join out "metadata.csv"). set (rp := join out "README.md").
  set (wa := {| fs := fs w0; log := _ |}).
  intros H. exists name, secs, z. split; [done|]. split; [done|].
  assert (Hlen : String.length out < String.length mp).
  { pose proof (join_length out "metadata.csv" eq_refl). simpl in *. subst mp. lia. }
  assert (Hrp : rp ≠ mp).
  { intros Heq. by apply join_inj in Heq. }
  assert (∃ wb, fs wb !! mp = fs w0 !! mp ∧
    ((there <- os_path_exists mp;; (if there then ret tt else write_text env mp ledger_header));;
     (there <- os_path_exists rp;;
        (if there then ret tt else write_text env rp (readme_text name)));;
     branch <- subprocess_run env ["git"; "branch"; "--show-current"] (script_dir env);;
     subprocess_run env ["git"; "checkout"; py_strip (stdout branch)] (script_dir env);;
     ret {| output_dir := out; metadata_path := mp; repo_path := script_dir env;
            interval := z |}) wb = (Ok s, w1)) as (wb & Hb & Hrun).
  { revert H. rewrite os_path_exists_eq. subst wa. cbn [fs].
    destruct (fs w0 !! out) eqn:Hout.
    - intros H. eexists. split; [|exact H]. done.
    - rewrite bind_eq.
      destruct (os_makedirs env out _) as [[[]|e] wb] eqn:Hmk; [|done].
      intros H. exists wb. split; [|exact H].
      by rewrite (os_makedirs_lookup _ _ _ _ Hmk Hlen). }
  clear H wa. revert Hrun. rewrite !bind_eq, os_path_exists_eq, Hb.
  assert (Htail : ∀ wc s' w',
    ((there <- os_path_exists rp;;
        (if there then ret tt else write_text env rp (readme_text name)));;
     branch <- subprocess_run env ["git"; "branch"; "--show-current"] (script_dir env);;
     subprocess_run env ["git"; "checkout"; py_strip (stdout branch)] (script_dir env);;
     ret {| output_dir := out; metadata_path := mp; repo_path := script_dir env;
            interval := z |}) wc = (Ok s', w') →
    s' = {| output_dir := out; metadata_path := mp; repo_path := script_dir env;
            interval := z |} ∧ fs w' !! mp = fs wc !! mp).
  { intros wc s' w'. rewrite !bind_eq, os_path_exists_eq.
    destruct (fs wc !! rp); simpl.
    - rewrite bind_eq, subprocess_run_eq. simpl.
      rewrite bind_eq, subprocess_run_eq. simpl. by intros [= <- <-].
    - destruct (write_text env rp _ wc) as [[[]|e] wd] eqn:Hw; [|done].
      rewrite bind_eq, subprocess_run_eq. simpl.
      rewrite bind_eq, subprocess_run_eq. simpl.
      intros [= <- <-]. split; [done|]. cbn.
      rewrite (write_text_ok _ _ _ _ Hw). by apply lookup_insert_ne. }
  destruct (fs w0 !! mp) as [i|] eqn:Hmp; simpl.
  - intros H. apply Htail in H as [-> Hf]. cbn. rewrite Hmp. by rewrite Hf.
  - destruct (write_text env mp _ wb) as [[[]|e] wc] eqn:Hw; [|done].
    intros H. apply Htail in H as [-> Hf]. cbn. rewrite Hmp.
    rewrite Hf, (write_text_ok _ _ _ _ Hw). by rewrite lookup_insert_eq.
Qed.


Lemma imwrite_fs_lookup t m p f q : p ≠ q → imwrite_fs env t m p f !! q = m !! q.
Proof.
  intros Hpq. unfold imwrite_fs.
  destruct (cv2_encode env t), (open_error m p); try done. by apply lookup_insert_ne.
Qed.





End Ledger.

Section NegativeInterval.
Context (env : Env).



End NegativeInterval.

(** * Further properties *)

(** ** Start-up failures and disk guard errors *)

Section Startup.
Context (env : Env).

Lemma main_bootstrap_fails fuel argv w e w' :
  bootstrap env argv w = (Raise e, w') → main env fuel argv w = (Raise e, w').
Proof. intros H. unfold main. by rewrite bind_eq, H. Qed.

Lemma bootstrap_parse_fails argv w e :
  parse_args argv w = (Raise e, w) → bootstrap env argv w = (Raise e, w).
Proof. intros H. unfold bootstrap. by rewrite bind_eq, H. Qed.

Lemma parse_args_cases argv w :
  parse_args argv w = (Raise ArgparseExit, w)
  ∨ ∃ name secs z, positionals argv = Some [name; secs] ∧ py_int secs = Some z ∧
      parse_args argv w = (Ok {| experiment_name := name; image_interval := z |}, w).
Proof.
  unfold parse_args.
  destruct (positionals argv) as [[|name [|secs [|]]]|]; try by left.
  destruct (py_int secs) as [z|] eqn:Hz; [|by left].
  right. by exists name, secs, z.
Qed.

(** X3.  When [Picamera2()] or [picam2.start()] raises [Picamera2Error],
    the script prints [Failed to initialize Picamera2: <message>] and exits
    with status 1: no timestamp is taken, no directory or file is created,
    git is not run and the loop is never entered. *)
Theorem camera_init_failure_exits fuel argv name secs z msg w :
  positionals argv = Some [name; secs] → py_int secs = Some z →
  (camera_start env (now w) = Some msg
   ∨ (camera_start env (now w) = None ∧ camera_start env (1 + now w) = Some msg)) →
  ∃ w' starts,
    main env fuel argv w = (Raise (SystemExit 1), w') ∧
    fs w' = fs w ∧
    history w' = history w ++ starts
                 ++ [EvPrint ("Failed to initialize Picamera2: " +:+ msg)] ∧
    (starts = [EvCameraStart] ∨ starts = [EvCameraStart; EvCameraStart]).
Proof.
  intros Hpos Hint Hcam.
  assert (Hb : ∃ w' starts,
    bootstrap env argv w = (Raise (SystemExit 1), w') ∧ fs w' = fs w ∧
    log w' = (EvPrint ("Failed to initialize Picamera2: " +:+ msg) :: reverse starts) ++ log w ∧
    (starts = [EvCameraStart] ∨ starts = [EvCameraStart; EvCameraStart])).
  { unfold bootstrap, parse_args. rewrite bind_eq, Hpos, Hint. unfold picam2_call.
    repeat first [rewrite bind_eq | rewrite try_except_eq | progress cbn].
    destruct Hcam as [->|[-> Hcam]]; cbn.
    - eexists _, [EvCameraStart]. split; [done|]. cbn. auto.
    - repeat first [rewrite bind_eq | rewrite try_except_eq | progress cbn].
      cbn in Hcam. rewrite Hcam. cbn.
      eexists _, [EvCameraStart; EvCameraStart]. split; [done|]. cbn. auto. }
  destruct Hb as (w' & starts & Hrun & Hfs & Hlog & Hst).
  exists w', starts. split; [by apply main_bootstrap_fails|]. split; [done|].
  split; [|done].
  rewrite (history_app _ _ _ Hlog). f_equal.
  rewrite reverse_cons, reverse_involutive. done.
Qed.

Lemma lstrip_elem c l : c ∈ l → is_space c = false → c ∈ lstrip l.
Proof.
  intros Hin Hc. induction l as [|x l IH]; simpl; [done|].
  destruct (is_space x) eqn:Hx; [|done].
  apply elem_of_cons in Hin as [->|Hin]; [congruence|auto].
Qed.

Lemma py_strip_elem c s :
  c ∈ list_ascii_of_string s → is_space c = false →
  c ∈ list_ascii_of_string (py_strip s).
Proof.
  intros Hin Hc. unfold py_strip. rewrite list_ascii_of_string_of_list_ascii.
  rewrite list_elem_of_In, <- in_rev, <- list_elem_of_In. apply lstrip_elem; [|done].
  rewrite list_elem_of_In, <- in_rev, <- list_elem_of_In. by apply lstrip_elem.
Qed.

Lemma digits_value_stray c l acc b :
  c ∈ l → is_digit c = false → Ascii.eqb c "_" = false →
  digits_value acc b l = None.
Proof.
  intros Hin Hd Hu. revert acc b. induction l as [|x l IH]; intros acc b; simpl.
  { by apply elem_of_nil in Hin. }
  apply elem_of_cons in Hin as [<-|Hin].
  { by rewrite Hd, Hu. }
  destruct (is_digit x); [auto|].
  destruct (Ascii.eqb x "_" && b); [|done].
  destruct l as [|d l']; [done|]. destruct (is_digit d); [auto|done].
Qed.

Lemma py_int_sign (s : string) :
  py_int s
  = match list_ascii_of_string (py_strip s) with
    | [] => digits_value 0 false []
    | a :: l =>
        if Ascii.eqb a "-" then Z.opp <$> digits_value 0 false l
        else if Ascii.eqb a "+" then digits_value 0 false l
        else digits_value 0 false (a :: l)
    end.
Proof.
  unfold py_int. destruct (list_ascii_of_string (py_strip s)) as [|a l]; [done|].
  destruct a as [[] [] [] [] [] [] [] []]; reflexivity.
Qed.

Lemma not_in_int_literal_spec c :
  not_in_int_literal c = true →
  is_space c = false ∧ is_digit c = false ∧ Ascii.eqb c "_" = false
  ∧ Ascii.eqb c "+" = false ∧ Ascii.eqb c "-" = false.
Proof.
  unfold not_in_int_literal, is_space.
  rewrite !andb_true_iff, !negb_true_iff.
  intros [[[[[H1%Nat.leb_le H2] ?] ?] ?] ?]. repeat split; try done.
  destruct (Nat.eqb_spec (nat_of_ascii c) 32); [lia|].
  destruct (Nat.leb_spec (nat_of_ascii c) 13); [lia|]. by rewrite andb_false_r.
Qed.

Lemma py_int_stray c s :
  c ∈ list_ascii_of_string s → not_in_int_literal c = true → py_int s = None.
Proof.
  intros Hin (Hsp & Hd & Hu & Hp & Hm)%not_in_int_literal_spec.
  pose proof (py_strip_elem _ _ Hin Hsp) as Hin'.
  rewrite py_int_sign. destruct (list_ascii_of_string (py_strip s)) as [|a l].
  { by apply elem_of_nil in Hin'. }
  assert (Hall : digits_value 0 false (a :: l) = None)
    by by apply (digits_value_stray c).
  destruct (Ascii.eqb_spec a "-") as [->|_].
  { apply elem_of_cons in Hin' as [->|Hin']; [done|].
    by rewrite (digits_value_stray c). }
  destruct (Ascii.eqb_spec a "+") as [->|_]; [|done].
  apply elem_of_cons in Hin' as [->|Hin']; [done|].
  by rewrite (digits_value_stray c).
Qed.

(** X2.  An interval that holds a printable character no integer literal
    can hold (a letter, a decimal point, ...) is refused by argparse whatever
    the experiment name is, again before anything else happens. *)
Theorem non_integer_interval_rejected fuel name secs w :
  existsb not_in_int_literal (list_ascii_of_string secs) = true →
  main env fuel [name; secs] w = (Raise ArgparseExit, w).
Proof.
  intros (c & Hin%list_elem_of_In & Hc)%existsb_exists.
  apply main_bootstrap_fails, bootstrap_parse_fails.
  destruct (parse_args_cases [name; secs] w) as [?|(n & t & z & Hpos & Hint & _)]; [done|].
  exfalso. revert Hpos. simpl.
  destruct (String.eqb name "--"); [done|]. destruct (optional_like name); [done|].
  destruct (String.eqb secs "--"); [done|]. destruct (optional_like secs); [done|].
  simpl. intros [= <- <-]. by rewrite (py_int_stray c) in Hint.
Qed.

Lemma positionals_plain argv :
  Forall (λ a, plain_token a = true) argv → positionals argv = Some argv.
Proof.
  induction 1 as [|a argv Ha _ IH]; simpl; [done|].
  unfold plain_token in Ha. apply andb_true_iff in Ha as [H1 H2].
  apply negb_true_iff in H1, H2. by rewrite H1, H2, IH.
Qed.

(** X1.  Called with any number of positional arguments other than two, the
    script leaves through argparse before it does anything else: nothing is
    logged, the camera is not opened, the file system is not touched. *)
Theorem wrong_argument_count_rejected fuel argv w :
  Forall (λ a, plain_token a = true) argv → length argv ≠ 2 →
  main env fuel argv w = (Raise ArgparseExit, w).
Proof.
  intros Hp Hlen. apply main_bootstrap_fails, bootstrap_parse_fails.
  unfold parse_args. rewrite (positionals_plain _ Hp).
  by destruct argv as [|? [|? [|]]].
Qed.

End Startup.

Section GuardEdges.
Context (env : Env).

(** X17.  A disk reading whose total is zero makes the guard raise
    [ZeroDivisionError]: at its first reading before anything is removed,
    and inside the eviction loop right after the file at hand was removed. *)
Theorem disk_guard_zero_total_raises directory threshold w :
  total (disk env (now w)) = 0%Z →
  manage_disk_usage env directory threshold w
  = (Raise ZeroDivisionError,
     {| fs := fs w; log := EvDiskUsage (disk env (now w)) :: log w |}) ∧
  ∀ p files pct w1,
    exceeds pct threshold = true →
    removable env (fs w1) p →
    total (disk env (2 + now w1)) = 0%Z →
    evict env threshold (p :: files) pct w1
    = (Raise ZeroDivisionError,
       {| fs := delete p (fs w1);
          log := EvDiskUsage (disk env (2 + now w1)) :: EvPrint ("Deleted " +:+ p)
                 :: EvRemove p :: log w1 |}).
Proof.
  intros Ht. split.
  - unfold manage_disk_usage. rewrite bind_eq. cbn. rewrite bind_eq.
    unfold used_percentage. by rewrite Ht.
  - intros p files pct w1 Hx Hr Ht1. simpl. rewrite Hx.
    rewrite bind_eq, os_remove_ok by done. cbn. rewrite bind_eq.
    unfold used_percentage. cbn in Ht1. by rewrite Ht1.
Qed.

(** X18.  With usage above the threshold, a directory that does not exist
    makes the guard raise [FileNotFoundError], and a path that is no
    directory [NotADirectoryError]; the warning has been printed by then and
    nothing was removed. *)
Theorem disk_guard_needs_directory directory threshold w :
  let r0 := disk env (now w) in
  total r0 ≠ 0%Z →
  exceeds (percent r0) threshold = true →
  st_kind <$> fs w !! directory ≠ Some Directory →
  manage_disk_usage env directory threshold w
  = (Raise (match fs w !! directory with
            | None => FileNotFoundError directory
            | Some _ => NotADirectoryError directory
            end),
     {| fs := fs w;
        log := EvPrint "Disk usage exceeded threshold. Deleting oldest files..."
               :: EvDiskUsage r0 :: log w |}).
Proof.
  intros r0 Ht Hx Hd. unfold manage_disk_usage. rewrite bind_eq. cbn. fold r0.
  rewrite bind_eq, used_percentage_ok by done. rewrite Hx.
  rewrite bind_eq. cbn. rewrite bind_eq. unfold os_listdir. rewrite bind_eq. cbn.
  destruct (fs w !! directory) as [[[] ? ?]|]; cbn in *; done.
Qed.

End GuardEdges.

(** ** Files of the same age *)






(** ** What the loop can touch *)

Lemma endswith_length suf s : endswith suf s = true → String.length suf ≤ String.length s.
Proof.
  induction s as [|c s IH]; simpl.
  - rewrite orb_false_r. by intros <-%String.eqb_eq.
  - intros [<-%String.eqb_eq|?%IH]%orb_true_iff; simpl; lia.
Qed.

Lemma endswith_app_r suf a n :
  String.length suf ≤ String.length n → endswith suf (a +:+ n) = endswith suf n.
Proof.
  intros Hlen. induction a as [|c a IH]; [by rewrite app_empty_l|].
  rewrite app_cons. simpl. rewrite IH.
  destruct (String.eqb_spec (String c (a +:+ n)) suf) as [<-|]; [|done].
  simpl in Hlen. rewrite length_app in Hlen. lia.
Qed.

Lemma endswith_join suf d n :
  String.length suf ≤ String.length n → endswith suf (join d n) = endswith suf n.
Proof.
  intros Hlen. unfold join. destruct (startswith "/" n); [done|].
  destruct (_ || _); rewrite !endswith_app_r; try done.
  rewrite length_app; lia.
Qed.

Lemma jpg_path_not_ledger s n :
  session_ok s → endswith ".jpg" n = true → join (output_dir s) n ≠ metadata_path s.
Proof.
  intros Hs Hn Heq. rewrite Hs in Heq.
  apply (f_equal (endswith ".jpg")) in Heq.
  rewrite !endswith_join in Heq by first [by apply endswith_length|simpl; lia]. by rewrite Hn in Heq.
Qed.

Section Footprint.
Context (env : Env).

Lemma image_path_at_jpg s w :
  ∃ n, image_path_at env s w = join (output_dir s) n ∧ endswith ".jpg" n = true.
Proof. eexists. split; [done|]. apply endswith_app. Qed.

Lemma loop_body_footprint s w q :
  fs (loop_body env s w).2 !! q = fs w !! q ∨ loop_may_touch s q.
Proof.
  destruct (decide (q = image_path_at env s w)) as [->|Hqp].
  { right. right. apply image_path_at_jpg. }
  destruct (decide (q = metadata_path s)) as [->|Hqm]; [right; by left|].
  rewrite loop_body_eq. cbn zeta.
  set (p := image_path_at env s w) in *. set (ts := strftime_YmdHMS _).
  match goal with |- context [capture_and_save env p ?w1] =>
    pose proof (capture_and_save_cases env p w1) as Hc end.
  destruct (camera_capture env _) as [f|msg]; [|rewrite Hc; by left].
  cbn in Hc.
  match type of Hc with context [imwrite_fs env ?t (fs w) p ?f'] =>
    set (m1 := imwrite_fs env t (fs w) p f') in * end.
  assert (H1 : m1 !! q = fs w !! q) by by apply imwrite_fs_lookup.
  assert (Hcs : (∃ w2, capture_and_save env p
                   {| fs := fs w; log := EvStrftime ts :: log w |} = (Ok true, w2)
                   ∧ fs w2 = fs w)
                ∨ ∃ l, capture_and_save env p
                   {| fs := fs w; log := EvStrftime ts :: log w |}
                   = (Ok false, {| fs := m1; log := l |})).
  { destruct (cv2_encode env _); rewrite Hc; eauto. }
  clear Hc. destruct Hcs as [(w2 & -> & Hw2)|[l ->]]; [left; by rewrite <- Hw2|].
  match goal with |- context [persist_and_sync env s ts p ?w2] =>
    pose proof (persist_and_sync_cases env s ts p w2) as Hp end.
  cbn [fs log] in Hp.
  destruct (open_error m1 (metadata_path s)) as [e|]; [rewrite Hp; by left|].
  cbn zeta in Hp. set (m2 := append_fs env _ m1 _ _) in *.
  assert (H2 : m2 !! q = fs w !! q).
  { unfold m2, append_fs. by rewrite lookup_insert_ne. }
  destruct (unlink_error _ m2 p) as [e|]; rewrite Hp; [by left|]. clear Hp.
  match goal with |- context [manage_disk_usage env ?d ?t ?wg] =>
    destruct (manage_disk_usage_frame env d t wg) as [_ Hf];
    specialize (Hf q); cbn [fs] in Hf;
    destruct (manage_disk_usage env d t wg) as [[[]|e] w3] end; cbn [snd] in Hf.
  all: rewrite lookup_delete_ne, H2 in Hf by done.
  all: assert (Hres : fs w3 !! q = fs w !! q ∨ loop_may_touch s q);
    [destruct Hf as [?|[_ Hc]]; [by left|right; right];
     apply elem_of_candidates in Hc as [_ (n & -> & _ & _ & Hn)%is_image_path_inv];
     by exists n|].
  all: cbn; try destruct (interval s <? 0)%Z; done.
Qed.

Lemma while_true_footprint fuel s n w q :
  fs (while_true fuel (loop_body env s) n w).2 !! q = fs w !! q ∨ loop_may_touch s q.
Proof.
  revert n w. induction fuel as [|fuel IH]; intros n w; [by left|].
  rewrite while_true_S. pose proof (loop_body_footprint s w q) as Hb.
  destruct (loop_body env s w) as [[[]|e] w1]; cbn [snd] in *; try done.
  - destruct (IH (S n) w1) as [->|?]; auto.
  - destruct (IH n w1) as [->|?]; auto.
Qed.

(** X15.  However long the loop runs and however it ends, the only paths it
    creates, changes or unlinks are [metadata.csv] and [.jpg] names joined
    to the output directory; the README is left exactly as it was. *)
Theorem loop_confined_to_output_dir fuel s n w :
  session_ok s →
  let w' := (while_true fuel (loop_body env s) n w).2 in
  (∀ q, fs w' !! q ≠ fs w !! q →
        ∃ name, q = join (output_dir s) name
                ∧ (name = "metadata.csv" ∨ endswith ".jpg" name = true)) ∧
  fs w' !! join (output_dir s) "README.md" = fs w !! join (output_dir s) "README.md".
Proof.
  intros Hs w'. split.
  - intros q Hq. destruct (while_true_footprint fuel s n w q) as [?|[->|(m & -> & Hm)]];
      [done|exists "metadata.csv"; auto|exists m; auto].
  - destruct (while_true_footprint fuel s n w (join (output_dir s) "README.md"))
      as [?|[Heq|(m & Heq & Hm)]]; [done| |].
    + rewrite Hs in Heq. by apply join_inj in Heq.
    + apply (f_equal (endswith ".jpg")) in Heq.
      rewrite !endswith_join in Heq by first [by apply endswith_length|simpl; lia]. by rewrite Hm in Heq.
Qed.

(** What a pass leaves at the ledger's path. *)
Lemma loop_body_ledger_entry s w :
  session_ok s →
  let w' := (loop_body env s w).2 in
  fs w' !! metadata_path s = fs w !! metadata_path s
  ∨ ∃ t, fs w' !! metadata_path s
         = Some (file_node t (ledger_text s w
                              +:+ ledger_line (strftime_YmdHMS (clock env (now w)))
                                              (image_path_at env s w))).
Proof.
  intros Hs. cbn zeta.
  destruct (image_path_at_jpg s w) as (n0 & Hp0 & Hn0).
  assert (Hpm : image_path_at env s w ≠ metadata_path s).
  { rewrite Hp0. by apply jpg_path_not_ledger. }
  rewrite loop_body_eq. cbn zeta.
  set (p := image_path_at env s w) in *. set (ts := strftime_YmdHMS _).
  match goal with |- context [capture_and_save env p ?w1] =>
    pose proof (capture_and_save_cases env p w1) as Hc end.
  destruct (camera_capture env _) as [f|msg]; [|rewrite Hc; by left].
  cbn in Hc.
  match type of Hc with context [imwrite_fs env ?t (fs w) p ?f'] =>
    set (m1 := imwrite_fs env t (fs w) p f') in * end.
  assert (H1 : m1 !! metadata_path s = fs w !! metadata_path s)
    by by apply imwrite_fs_lookup.
  assert (Hcs : (∃ w2, capture_and_save env p
                   {| fs := fs w; log := EvStrftime ts :: log w |} = (Ok true, w2)
                   ∧ fs w2 = fs w)
                ∨ ∃ l, capture_and_save env p
                   {| fs := fs w; log := EvStrftime ts :: log w |}
                   = (Ok false, {| fs := m1; log := l |})).
  { destruct (cv2_encode env _); rewrite Hc; eauto. }
  clear Hc. destruct Hcs as [(w2 & -> & Hw2)|[l ->]]; [left; by rewrite <- Hw2|].
  match goal with |- context [persist_and_sync env s ts p ?w2] =>
    pose proof (persist_and_sync_cases env s ts p w2) as Hp end.
  cbn [fs log] in Hp.
  destruct (open_error m1 (metadata_path s)) as [e|]; [rewrite Hp; by left|].
  cbn zeta in Hp.
  match type of Hp with context [append_fs env ?t m1 ?a ?b] =>
    set (m2 := append_fs env t m1 a b) in *;
    assert (H2 : m2 !! metadata_path s
                 = Some (file_node (stamp env t) (ledger_text s w +:+ ledger_line ts p)))
  end.
  { unfold m2, append_fs. rewrite lookup_insert_eq. unfold ledger_text. by rewrite H1. }
  destruct (unlink_error _ m2 p) as [e|]; rewrite Hp; [right; by eexists|]. clear Hp.
  match goal with |- context [manage_disk_usage env ?d ?t ?wg] =>
    destruct (manage_disk_usage_frame env d t wg) as [_ Hf];
    specialize (Hf (metadata_path s)); cbn [fs] in Hf;
    destruct (manage_disk_usage env d t wg) as [[[]|e] w3] end; cbn [snd] in Hf.
  all: rewrite lookup_delete_ne, H2 in Hf by done.
  all: match type of H2 with _ = ?r =>
         assert (Hres : fs w3 !! metadata_path s = r) end;
    [destruct Hf as [Hf|[_ Hc]]; [exact Hf|];
     apply elem_of_candidates in Hc as [_ Hc]; rewrite Hs in Hc;
     by rewrite not_image_path in Hc|].
  all: right; eexists; cbn; try destruct (interval s <? 0)%Z; exact Hres.
Qed.

(** X16.  Whatever happens in the loop, a crash included, the ledger is only
    ever extended: its text after the run is its text before followed by
    what was appended, and a ledger that existed still exists. *)
Theorem ledger_only_grows fuel s n w :
  session_ok s →
  let w' := (while_true fuel (loop_body env s) n w).2 in
  (∃ added, ledger_text s w' = ledger_text s w +:+ added) ∧
  (is_Some (fs w !! metadata_path s) → is_Some (fs w' !! metadata_path s)).
Proof.
  intros Hs. cbn zeta. revert n w. induction fuel as [|fuel IH]; intros n w.
  { split; [exists ""; by rewrite app_empty_r|done]. }
  assert (Hb : (∃ added, ledger_text s (loop_body env s w).2 = ledger_text s w +:+ added)
               ∧ (is_Some (fs w !! metadata_path s)
                  → is_Some (fs (loop_body env s w).2 !! metadata_path s))).
  { destruct (loop_body_ledger_entry s w Hs) as [Hl|[t Hl]].
    - split; [exists ""; unfold ledger_text; by rewrite Hl, app_empty_r|by rewrite Hl].
    - split; [eexists; unfold ledger_text at 1; by rewrite Hl|by rewrite Hl]. }
  rewrite while_true_S.
  destruct (loop_body env s w) as [[[]|e] w1]; cbn [snd] in *; try done.
  - destruct Hb as [[a1 H1] Hex], (IH (S n) w1) as [[a2 H2] Hex'].
    split; [exists (a1 +:+ a2); by rewrite H2, H1, app_assoc_str|auto].
  - destruct Hb as [[a1 H1] Hex], (IH n w1) as [[a2 H2] Hex'].
    split; [exists (a1 +:+ a2); by rewrite H2, H1, app_assoc_str|auto].
Qed.

(** X12.  [cv2.imwrite] reports a failed write by returning [False], which
    the script does not look at.  The pass then goes on as if the image
    existed: it appends the ledger line, runs git add, commit and push,
    prints the upload message, and only [os.remove] raises
    [FileNotFoundError], which nothing catches: the loop ends there, with a
    ledger line for an image that never existed. *)
Theorem unwritten_image_is_fatal s w f :
  session_ok s →
  let ts := strftime_YmdHMS (clock env (now w)) in
  let p := join (output_dir s) (ts +:+ ".jpg") in
  let line := ts +:+ "," +:+ p +:+ nl in
  camera_capture env (1 + now w) = Captured f →
  (cv2_encode env (3 + now w) = ImwriteFalse
   ∨ (cv2_encode env (3 + now w) = ImwriteTrue ∧ is_Some (open_error (fs w) p))) →
  fs w !! p = None →
  open_error (fs w) (metadata_path s) = None →
  ∃ w',
    loop_body env s w = (Raise (FileNotFoundError p), w') ∧
    (∀ fuel n,
       while_true (S fuel) (loop_body env s) n w = (Raise (FileNotFoundError p), w')) ∧
    st_data <$> fs w' !! metadata_path s = Some (ledger_text s w +:+ line) ∧
    history w'
    = history w
      ++ [EvStrftime ts;
          EvCapture;
          EvRotate;
          EvImwrite p (rotate_90_clockwise f);
          EvAppend (metadata_path s) line;
          EvRun ["git"; "add"; p; metadata_path s] (repo_path s);
          EvRun ["git"; "commit"; "-m"; "Add image and metadata for " +:+ ts] (repo_path s);
          EvRun ["git"; "push"] (repo_path s);
          EvPrint ("Captured and uploaded image at " +:+ ts);
          EvRemove p].
Proof.
  intros Hs ts p line Hcap Henc Hnone Hopen.
  assert (Hpm : p ≠ metadata_path s) by (apply jpg_path_not_ledger; [done|apply endswith_app]).
  assert (Hbody : ∃ w', loop_body env s w = (Raise (FileNotFoundError p), w') ∧
    st_data <$> fs w' !! metadata_path s = Some (ledger_text s w +:+ line) ∧
    log w' = [EvRemove p;
              EvPrint ("Captured and uploaded image at " +:+ ts);
              EvRun ["git"; "push"] (repo_path s);
              EvRun ["git"; "commit"; "-m"; "Add image and metadata for " +:+ ts]
                (repo_path s);
              EvRun ["git"; "add"; p; metadata_path s] (repo_path s);
              EvAppend (metadata_path s) line;
              EvImwrite p (rotate_90_clockwise f); EvRotate; EvCapture; EvStrftime ts]
             ++ log w).
  { rewrite loop_body_eq. cbn zeta. fold ts. change (image_path_at env s w) with p.
    match goal with |- context [capture_and_save env p ?w1] =>
      pose proof (capture_and_save_cases env p w1) as Hc end.
    cbn in Hc. cbn in Hcap, Henc. rewrite Hcap in Hc.
    assert (Hm1 : imwrite_fs env (S (S (S (now w)))) (fs w) p (rotate_90_clockwise f) = fs w).
    { unfold imwrite_fs. destruct Henc as [->|[-> [e ->]]]; done. }
    rewrite Hm1 in Hc.
    assert (Hcs : capture_and_save env p {| fs := fs w; log := EvStrftime ts :: log w |}
                  = (Ok false, {| fs := fs w;
                       log := EvImwrite p (rotate_90_clockwise f) :: EvRotate :: EvCapture
                              :: EvStrftime ts :: log w |})).
    { destruct Henc as [Hf|[Hf _]]; by rewrite Hf in Hc. }
    rewrite Hcs. clear Hc Hcs.
    match goal with |- context [persist_and_sync env s ts p ?w2] =>
      pose proof (persist_and_sync_cases env s ts p w2) as Hp end.
    cbn [fs log] in Hp. rewrite Hopen in Hp. cbn zeta in Hp.
    match type of Hp with context [append_fs env ?t (fs w) ?a ?b] =>
      set (m2 := append_fs env t (fs w) a b) in * end.
    assert (Hrm : unlink_error (unlink_denied env) m2 p = Some (FileNotFoundError p)).
    { unfold unlink_error, m2, append_fs. by rewrite lookup_insert_ne, Hnone. }
    rewrite Hrm in Hp. rewrite Hp. eexists. split; [done|]. cbn [fs log]. split; [|done].
    unfold m2, append_fs. rewrite lookup_insert_eq. done. }
  destruct Hbody as (w' & Hrun & Hled & Hlog). exists w'.
  split; [done|]. split; [|split; [done|]].
  - intros fuel n. by rewrite while_true_S, Hrun.
  - by rewrite (history_app _ _ _ Hlog).
Qed.

(** X13.  When the ledger cannot be opened for appending, the error raised by
    [open] ends the loop: it is raised outside the [try] block.  The image
    just written stays on disk, and neither git nor the local delete nor the
    disk guard is reached. *)
Theorem unwritable_ledger_is_fatal s w f e :
  let ts := strftime_YmdHMS (clock env (now w)) in
  let p := join (output_dir s) (ts +:+ ".jpg") in
  let f' := rotate_90_clockwise f in
  let m1 := <[p := file_node (stamp env (3 + now w)) (jpeg env f')]> (fs w) in
  camera_capture env (1 + now w) = Captured f →
  cv2_encode env (3 + now w) = ImwriteTrue →
  open_error (fs w) p = None →
  open_error m1 (metadata_path s) = Some e →
  ∃ w',
    loop_body env s w = (Raise e, w') ∧
    (∀ fuel n, while_true (S fuel) (loop_body env s) n w = (Raise e, w')) ∧
    fs w' = m1 ∧
    history w'
    = history w
      ++ [EvStrftime ts; EvCapture; EvRotate; EvImwrite p f';
          EvAppend (metadata_path s) (ts +:+ "," +:+ p +:+ nl)].
Proof.
  intros ts p f' m1 Hcap Henc Hopen Hled.
  assert (Hbody : ∃ w', loop_body env s w = (Raise e, w') ∧ fs w' = m1 ∧
    log w' = [EvAppend (metadata_path s) (ts +:+ "," +:+ p +:+ nl);
              EvImwrite p f'; EvRotate; EvCapture; EvStrftime ts] ++ log w).
  { rewrite loop_body_eq. cbn zeta. fold ts. change (image_path_at env s w) with p.
    match goal with |- context [capture_and_save env p ?w1] =>
      pose proof (capture_and_save_cases env p w1) as Hc end.
    cbn in Hc. cbn in Hcap, Henc. rewrite Hcap, Henc in Hc. fold f' in Hc.
    assert (Hm1 : imwrite_fs env (S (S (S (now w)))) (fs w) p f' = m1).
    { unfold imwrite_fs. by rewrite Henc, Hopen. }
    rewrite Hm1 in Hc. rewrite Hc. clear Hc.
    match goal with |- context [persist_and_sync env s ts p ?w2] =>
      pose proof (persist_and_sync_cases env s ts p w2) as Hp end.
    cbn [fs log] in Hp. rewrite Hled in Hp. rewrite Hp. by eexists. }
  destruct Hbody as (w' & Hrun & Hfs & Hlog). exists w'.
  split; [done|]. split; [|split; [done|]].
  - intros fuel n. by rewrite while_true_S, Hrun.
  - by rewrite (history_app _ _ _ Hlog).
Qed.

End Footprint.

(** ** Calls the script never makes *)

Lemma emits_only_bind_ok {A B} (P : event → Prop) (m : M A) (k : A → M B) :
  emits_only P m →
  (∀ w a w', m w = (Ok a, w') → emits_only P (k a)) →
  emits_only P (bind m k).
Proof.
  intros Hm Hk w. rewrite bind_eq. destruct (Hm w) as (evs & Hl & He).
  destruct (m w) as [[a|e] w1] eqn:Hmw; simpl in *; [|by exists evs].
  destruct (Hk _ _ _ Hmw w1) as (evs' & Hl' & He'). exists (evs' ++ evs).
  rewrite Hl', Hl, app_assoc. split; [done|]. by apply Forall_app.
Qed.

Lemma emits_only_history {A} (P : event → Prop) (m : M A) w :
  emits_only P m → ∃ evs, history (m w).2 = history w ++ evs ∧ Forall P evs.
Proof.
  intros Hm. destruct (Hm w) as (evs & Hl & He). exists (reverse evs).
  split; [by apply history_app|]. by apply Forall_reverse.
Qed.

Section Calls.
Context (env : Env).

(** The guard only removes, prints and reads the disk usage. *)
Lemma manage_disk_usage_emits (P : event → Prop) d thr :
  (∀ p, P (EvRemove p)) → (∀ l, P (EvPrint l)) → (∀ r, P (EvDiskUsage r)) →
  emits_only P (manage_disk_usage env d thr).
Proof.
  intros H1 H2 H3 w. destruct (manage_disk_usage_frame env d thr w) as [(evs & Hl & He) _].
  exists evs. split; [done|]. eapply Forall_impl; [done|]. by intros [].
Qed.

Lemma loop_body_loop_call s : emits_only loop_call (loop_body env s).
Proof.
  assert (Hm : ∀ d thr, emits_only loop_call (manage_disk_usage env d thr))
    by (intros; by apply manage_disk_usage_emits).
  unfold loop_body, time_strftime, capture_and_save, picam2_capture_array, cv2_rotate,
    cv2_imwrite, print, persist_and_sync, append_text, subprocess_run, os_remove,
    time_sleep.
  emits.
Qed.

(** X14.  Once in the loop the script never opens the camera again, never
    creates a directory and never opens a file for writing from scratch. *)
Theorem loop_never_writes_or_reopens fuel s n w :
  ∃ evs,
    history (while_true fuel (loop_body env s) n w).2 = history w ++ evs ∧
    (EvCameraStart ∉ evs) ∧
    (∀ p, EvMakedirs p ∉ evs) ∧
    (∀ p data, EvWrite p data ∉ evs).
Proof.
  destruct (emits_only_history loop_call (while_true fuel (loop_body env s) n) w)
    as (evs & Hh & He).
  { apply emits_only_while_true, loop_body_loop_call. }
  exists evs. split; [done|]. rewrite Forall_forall in He.
  repeat split; repeat intros ?; by match goal with H : _ ∈ evs |- _ => apply He in H end.
Qed.

Lemma loop_body_git_call s : emits_only (git_call (repo_path s)) (loop_body env s).
Proof.
  assert (Hm : ∀ d thr, emits_only (git_call (repo_path s)) (manage_disk_usage env d thr))
    by (intros; by apply manage_disk_usage_emits).
  unfold loop_body, time_strftime, capture_and_save, picam2_capture_array, cv2_rotate,
    cv2_imwrite, print, persist_and_sync, append_text, subprocess_run, os_remove,
    time_sleep.
  emits.
Qed.

Lemma bootstrap_git_call argv : emits_only (git_call (script_dir env)) (bootstrap env argv).
Proof.
  unfold bootstrap, parse_args, picam2_call, print, time_strftime, os_path_exists,
    os_makedirs, write_text, subprocess_run.
  emits.
Qed.

Ltac step_bind H :=
  rewrite bind_eq in H;
  match type of H with
  | context [match ?m ?w with _ => _ end] =>
      destruct (m w) as [[?|?] ?]; [|discriminate H]
  end.

Lemma bootstrap_repo_path argv w s w' :
  bootstrap env argv w = (Ok s, w') → repo_path s = script_dir env.
Proof.
  unfold bootstrap. intros H.
  do 10 step_bind H.
  cbn in H. by injection H as <- _.
Qed.

(** X9.  Every [subprocess.run] of a run of the script, in bootstrap and in
    the loop alike, runs git with the script's own directory as working
    directory. *)
Theorem every_subprocess_is_git_in_script_dir fuel argv w :
  ∃ evs,
    history (main env fuel argv w).2 = history w ++ evs ∧
    ∀ cmd cwd, EvRun cmd cwd ∈ evs → head cmd = Some "git" ∧ cwd = script_dir env.
Proof.
  destruct (emits_only_history (git_call (script_dir env)) (main env fuel argv) w)
    as (evs & Hh & He).
  { unfold main. apply emits_only_bind_ok; [apply bootstrap_git_call|].
    intros w0 s w1 <-%bootstrap_repo_path.
    apply emits_only_bind; [apply emits_only_while_true, loop_body_git_call|].
    intros []; unfold picam2_stop, print; emits. }
  exists evs. split; [done|]. rewrite Forall_forall in He.
  intros cmd cwd Hin. by apply He in Hin.
Qed.

End Calls.

(** ** What bootstrap leaves in place *)

Section Keeps.

Lemma keeps_ret {A} (a : A) : keeps_entries (ret a).
Proof. by intros w. Qed.

Lemma keeps_raise {A} e : keeps_entries (raise e : M A).
Proof. by intros w. Qed.

Lemma keeps_emit ev : keeps_entries (emit ev).
Proof. by intros w. Qed.

Lemma keeps_get_now : keeps_entries get_now.
Proof. by intros w. Qed.

Lemma keeps_get_fs : keeps_entries get_fs.
Proof. by intros w. Qed.

Lemma keeps_bind {A B} (m : M A) (k : A → M B) :
  keeps_entries m → (∀ a, keeps_entries (k a)) → keeps_entries (bind m k).
Proof.
  intros Hm Hk w. rewrite bind_eq. specialize (Hm w).
  destruct (m w) as [[a|e] w1]; simpl in *; [|done].
  etrans; [done|apply Hk].
Qed.

Lemma keeps_try_except {A} (m : M A) c h :
  keeps_entries m → (∀ e, keeps_entries (h e)) → keeps_entries (try_except m c h).
Proof.
  intros Hm Hh w. rewrite try_except_eq. specialize (Hm w).
  destruct (m w) as [[a|e] w1]; simpl in *; [done|].
  destruct (c e); [|done]. etrans; [done|apply Hh].
Qed.

End Keeps.

Lemma mkdirs_keeps t todo m m' : mkdirs t todo m = Ok m' → m ⊆ m'.
Proof.
  revert m. induction todo as [|a todo IH]; intros m; simpl; [by intros [= ->]|].
  destruct (m !! a) as [[[] ? ?]|] eqn:Ha; simpl; [done|by apply IH|].
  intros Hm%IH. etrans; [|done]. by apply insert_subseteq.
Qed.

Section KeepsEntries.
Context (env : Env).

Lemma os_makedirs_keeps p : keeps_entries (os_makedirs env p).
Proof.
  intros w. unfold os_makedirs. rewrite !bind_eq. cbn.
  destruct (mkdirs _ _ _) as [m'|e] eqn:Hm; cbn; [|done].
  destruct (m' !! p) eqn:Hp; cbn; [done|].
  etrans; [by eapply mkdirs_keeps|]. by apply insert_subseteq.
Qed.

Lemma keeps_bind_at {A B} (m : M A) (k : A → M B) w :
  fs w ⊆ fs (m w).2 →
  (∀ a w', m w = (Ok a, w') → fs w' ⊆ fs (k a w').2) →
  fs w ⊆ fs (bind m k w).2.
Proof.
  intros Hm Hk. rewrite bind_eq.
  destruct (m w) as [[a|e] w1] eqn:Hmw; simpl in *; [|done].
  etrans; [done|by apply Hk].
Qed.

(** [if not os.path.exists(p): with open(p, 'w') ...], and what follows. *)
Lemma write_if_absent_keeps {B} p data (k : M B) w :
  (∀ w', fs w' ⊆ fs (k w').2) →
  fs w ⊆ fs ((there <- os_path_exists p ;;
              (if there : bool then ret tt else write_text env p data) ;; k) w).2.
Proof.
  intros Hk. rewrite bind_eq, os_path_exists_eq.
  destruct (fs w !! p) eqn:Hp.
  { apply keeps_bind_at; [done|]. intros _ w' [= <-]. apply Hk. }
  apply keeps_bind_at; [|intros _ w' _; apply Hk].
  unfold write_text. rewrite !bind_eq. cbn.
  destruct (open_error (fs w) p); cbn; [done|]. by apply insert_subseteq.
Qed.

Lemma bootstrap_keeps argv : keeps_entries (bootstrap env argv).
Proof.
  unfold bootstrap. apply keeps_bind.
  { unfold parse_args. repeat case_match; first [apply keeps_ret|apply keeps_raise]. }
  intros args. apply keeps_bind.
  { unfold picam2_call, print.
    repeat first [ apply keeps_ret | apply keeps_raise | apply keeps_emit
                 | apply keeps_get_now | apply keeps_bind; [|intros ?]
                 | apply keeps_try_except; [|intros ?] | case_match ]. }
  intros _. apply keeps_bind; [by intros w|]. intros ts w.
  apply keeps_bind_at; [done|]. intros there w1 _.
  apply keeps_bind_at; [destruct there; [done|apply os_makedirs_keeps]|].
  intros _ w2 _. apply write_if_absent_keeps. intros w3.
  apply write_if_absent_keeps. intros w4. done.
Qed.

(** X7.  Bootstrap never replaces or removes what is already there: every
    entry of the file system it starts from is still there, unchanged,
    however bootstrap ends. *)
Theorem bootstrap_keeps_existing_entries argv w q i :
  fs w !! q = Some i → fs (bootstrap env argv w).2 !! q = Some i.
Proof.
  intros Hq. by eapply lookup_weaken; [|apply bootstrap_keeps].
Qed.

End KeepsEntries.

(** ** Bootstrap, step by step *)

Lemma list_ascii_app (a b : string) :
  list_ascii_of_string (a +:+ b) = list_ascii_of_string a ++ list_ascii_of_string b.
Proof. induction a as [|c a IH]; [done|]. rewrite app_cons. simpl. by rewrite IH. Qed.

Lemma py_strip_line b :
  Forall (λ c, is_space c = false) (list_ascii_of_string b) → py_strip (b +:+ nl) = b.
Proof.
  intros Hb. unfold py_strip. rewrite list_ascii_app. simpl (list_ascii_of_string nl).
  assert (Hl : lstrip (list_ascii_of_string b ++ [newline])
               = match list_ascii_of_string b with [] => [] | l => l ++ [newline] end).
  { destruct Hb as [|c l Hc _]; simpl; [done|by rewrite Hc]. }
  rewrite Hl. destruct (list_ascii_of_string b) as [|c l] eqn:Hbl.
  { destruct b; [done|discriminate Hbl]. }
  remember (c :: l) as L eqn:HL. rewrite rev_app_distr. cbn [rev app].
  change (lstrip (newline :: rev L)) with (lstrip (rev L)).
  rewrite lstrip_id by by apply Forall_rev.
  by rewrite rev_involutive, <- Hbl, string_of_list_ascii_of_string.
Qed.

Lemma cuts_component acc a s :
  has_char slash a = false → acc +:+ a ∈ cuts acc (a +:+ "/" +:+ s).
Proof.
  revert acc. induction a as [|c a IH]; intros acc Ha.
  - rewrite app_empty_l, app_empty_r. simpl.
    apply elem_of_app. right. by apply list_elem_of_singleton.
  - simpl in Ha. apply orb_false_iff in Ha as [Hc Ha].
    rewrite app_cons. simpl. rewrite Hc.
    replace (acc +:+ String c a) with ((acc +:+ String c "") +:+ a)
      by (by rewrite app_assoc_str, app_cons, app_empty_l).
    by apply IH.
Qed.

Lemma images_ancestor rest : "images" ∈ ancestors ("images/" +:+ rest).
Proof.
  unfold ancestors. apply list_elem_of_filter. split; [by split|].
  rewrite elem_of_reverse.
  exact (cuts_component "" "images" rest eq_refl).
Qed.

Lemma reverse_unless_present m p ev :
  reverse (unless_present m p [ev]) = unless_present m p [ev].
Proof. unfold unless_present. by destruct (m !! p). Qed.

Section BootstrapSteps.
Context (env : Env).

Lemma os_makedirs_keeps_at p w r w' :
  os_makedirs env p w = (r, w') → fs w ⊆ fs w'.
Proof. intros H. pose proof (os_makedirs_keeps env p w) as Hk. by rewrite H in Hk. Qed.

Lemma os_makedirs_log p w w' :
  os_makedirs env p w = (Ok tt, w') → log w' = EvMakedirs p :: log w.
Proof.
  unfold os_makedirs. rewrite !bind_eq. cbn.
  destruct (mkdirs _ _ _) as [m'|e]; cbn; [|done].
  destruct (m' !! p); cbn; [done|]. by intros [= <-].
Qed.

Lemma write_text_log p data w w' :
  write_text env p data w = (Ok tt, w') → log w' = EvWrite p data :: log w.
Proof.
  unfold write_text. rewrite !bind_eq. cbn.
  destruct (open_error (fs w) p); cbn; [done|]. by intros [= <-].
Qed.

Lemma bootstrap_eq argv w0 name secs z :
  positionals argv = Some [name; secs] → py_int secs = Some z →
  camera_start env (now w0) = None → camera_start env (1 + now w0) = None →
  let ts := strftime_YmdHMS (clock env (2 + now w0)) in
  let od := "images/" +:+ name +:+ "_" +:+ ts in
  let mp := join od "metadata.csv" in
  let rp := join od "README.md" in
  let wa := {| fs := fs w0;
               log := EvStrftime ts :: EvCameraStart :: EvCameraStart :: log w0 |} in
  bootstrap env argv w0
  = match (match fs wa !! od with
           | Some _ => (Ok tt, wa)
           | None => os_makedirs env od wa
           end) with
    | (Raise e, w) => (Raise e, w)
    | (Ok _, wb) =>
        match (match fs wb !! mp with
               | Some _ => (Ok tt, wb)
               | None => write_text env mp ledger_header wb
               end) with
        | (Raise e, w) => (Raise e, w)
        | (Ok _, wc) =>
            match (match fs wc !! rp with
                   | Some _ => (Ok tt, wc)
                   | None => write_text env rp (readme_text name) wc
                   end) with
            | (Raise e, w) => (Raise e, w)
            | (Ok _, wd) =>
                (Ok {| output_dir := od; metadata_path := mp;
                       repo_path := script_dir env; interval := z |},
                 {| fs := fs wd;
                    log := EvRun ["git"; "checkout";
                                  py_strip (stdout (subprocess env (now wd)))]
                             (script_dir env)
                           :: EvRun ["git"; "branch"; "--show-current"] (script_dir env)
                           :: log wd |})
            end
        end
    end.
Proof.
  intros Hpos Hint Hc1 Hc2 ts od mp rp wa.
  unfold bootstrap, parse_args. rewrite bind_eq, Hpos, Hint. unfold picam2_call.
  repeat first [rewrite bind_eq | rewrite try_except_eq | progress cbn].
  rewrite Hc1. cbn.
  repeat first [rewrite bind_eq | rewrite try_except_eq | progress cbn].
  cbn in Hc2. rewrite Hc2. cbn.
  repeat first [rewrite bind_eq | rewrite try_except_eq | progress cbn].
  change (strftime_YmdHMS (clock env (S (S (now w0))))) with ts.
  fold od. fold mp. fold rp. fold wa.
  assert (Htail : ∀ wb,
    (there <- os_path_exists mp;;
     (if there then ret tt else write_text env mp ledger_header);;
     there0 <- os_path_exists rp;;
     (if there0 then ret tt else write_text env rp (readme_text name));;
     branch <- subprocess_run env ["git"; "branch"; "--show-current"] (script_dir env);;
     subprocess_run env ["git"; "checkout"; py_strip (stdout branch)] (script_dir env);;
     ret {| output_dir := od; metadata_path := mp; repo_path := script_dir env;
            interval := z |}) wb
    = match (match fs wb !! mp with
               | Some _ => (Ok tt, wb)
               | None => write_text env mp ledger_header wb
               end) with
        | (Raise e, w) => (Raise e, w)
        | (Ok _, wc) =>
            match (match fs wc !! rp with
                   | Some _ => (Ok tt, wc)
                   | None => write_text env rp (readme_text name) wc
                   end) with
            | (Raise e, w) => (Raise e, w)
            | (Ok _, wd) =>
                (Ok {| output_dir := od; metadata_path := mp;
                       repo_path := script_dir env; interval := z |},
                 {| fs := fs wd;
                    log := EvRun ["git"; "checkout";
                                  py_strip (stdout (subprocess env (now wd)))]
                             (script_dir env)
                           :: EvRun ["git"; "branch"; "--show-current"] (script_dir env)
                           :: log wd |})
            end
        end).
  { intros wb. rewrite bind_eq, os_path_exists_eq.
    assert (Htail2 : ∀ wc,
      (there0 <- os_path_exists rp;;
       (if there0 then ret tt else write_text env rp (readme_text name));;
       branch <- subprocess_run env ["git"; "branch"; "--show-current"] (script_dir env);;
       subprocess_run env ["git"; "checkout"; py_strip (stdout branch)] (script_dir env);;
       ret {| output_dir := od; metadata_path := mp; repo_path := script_dir env;
              interval := z |}) wc
      = match (match fs wc !! rp with
                   | Some _ => (Ok tt, wc)
                   | None => write_text env rp (readme_text name) wc
                   end) with
            | (Raise e, w) => (Raise e, w)
            | (Ok _, wd) =>
                (Ok {| output_dir := od; metadata_path := mp;
                       repo_path := script_dir env; interval := z |},
                 {| fs := fs wd;
                    log := EvRun ["git"; "checkout";
                                  py_strip (stdout (subprocess env (now wd)))]
                             (script_dir env)
                           :: EvRun ["git"; "branch"; "--show-current"] (script_dir env)
                           :: log wd |})
            end).
    { intros wc. rewrite bind_eq, os_path_exists_eq.
      destruct (fs wc !! rp); rewrite bind_eq.
      - cbn. rewrite bind_eq, subprocess_run_eq. cbn.
        by rewrite bind_eq, subprocess_run_eq.
      - destruct (write_text env rp _ wc) as [[[]|e] wd]; [|done].
        rewrite bind_eq, subprocess_run_eq. cbn.
        by rewrite bind_eq, subprocess_run_eq. }
    destruct (fs wb !! mp); rewrite bind_eq.
    - exact (Htail2 wb).
    - destruct (write_text env mp _ wb) as [[[]|e] wc]; [|done]. exact (Htail2 wc). }
  rewrite os_path_exists_eq. cbn [fs wa].
  destruct (fs w0 !! od); rewrite bind_eq.
  - exact (Htail wa).
  - destruct (os_makedirs env od wa) as [[[]|e] wb]; [|done]. exact (Htail wb).
Qed.

Lemma mkdirs_dirs t todo m m' a :
  mkdirs t todo m = Ok m' → a ∈ todo → st_kind <$> m' !! a = Some Directory.
Proof.
  revert m. induction todo as [|b todo IH]; intros m; simpl.
  { by intros _ ?%elem_of_nil. }
  intros Hm [->|Ha]%elem_of_cons.
  2:{ destruct (st_kind <$> m !! b) as [[]|]; [done|by eapply IH..]. }
  destruct (m !! b) as [[[] ? ?]|] eqn:Hb; simpl in Hm; [done| |].
  - apply mkdirs_keeps in Hm. by rewrite (lookup_weaken _ _ _ _ Hb Hm).
  - apply mkdirs_keeps in Hm.
    by rewrite (lookup_weaken _ _ b (dir_node t) (lookup_insert_eq _ _ _) Hm).
Qed.

Lemma os_makedirs_dirs p w w' :
  os_makedirs env p w = (Ok tt, w') →
  st_kind <$> fs w' !! p = Some Directory ∧
  ∀ a, a ∈ ancestors p → st_kind <$> fs w' !! a = Some Directory.
Proof.
  unfold os_makedirs. rewrite !bind_eq. cbn.
  destruct (mkdirs _ _ _) as [m'|e] eqn:Hm; cbn; [|done].
  destruct (m' !! p) eqn:Hp; cbn; [done|]. intros [= <-]. cbn. split.
  - by rewrite lookup_insert_eq.
  - intros a Ha. rewrite lookup_insert_ne.
    + by eapply mkdirs_dirs.
    + intros ->. apply ancestors_length in Ha. lia.
Qed.

Lemma write_text_absent_keeps p data w w' :
  fs w !! p = None → write_text env p data w = (Ok tt, w') → fs w ⊆ fs w'.
Proof. intros Hp ->%write_text_ok. by apply insert_subseteq. Qed.

Lemma unless_present_eq m m' p evs :
  m' !! p = m !! p → unless_present m' p evs = unless_present m p evs.
Proof. unfold unless_present. by intros ->. Qed.

(** A bootstrap that returns, step by step. *)
Lemma bootstrap_inv argv w0 s w1 :
  bootstrap env argv w0 = (Ok s, w1) →
  ∃ name secs z wd,
    positionals argv = Some [name; secs] ∧ py_int secs = Some z ∧
    let ts := strftime_YmdHMS (clock env (2 + now w0)) in
    let od := "images/" +:+ name +:+ "_" +:+ ts in
    let mp := join od "metadata.csv" in
    let rp := join od "README.md" in
    s = {| output_dir := od; metadata_path := mp; repo_path := script_dir env;
           interval := z |} ∧
    w1 = {| fs := fs wd;
            log := EvRun ["git"; "checkout"; py_strip (stdout (subprocess env (now wd)))]
                     (script_dir env)
                   :: EvRun ["git"; "branch"; "--show-current"] (script_dir env)
                   :: log wd |} ∧
    log wd = unless_present (fs w0) rp [EvWrite rp (readme_text name)]
             ++ unless_present (fs w0) mp [EvWrite mp ledger_header]
             ++ unless_present (fs w0) od [EvMakedirs od]
             ++ [EvStrftime ts; EvCameraStart; EvCameraStart] ++ log w0 ∧
    (fs w0 !! od = None →
     st_kind <$> fs wd !! od = Some Directory ∧
     ∀ a, a ∈ ancestors od → st_kind <$> fs wd !! a = Some Directory) ∧
    (fs w0 !! rp = None → st_data <$> fs wd !! rp = Some (readme_text name)).
Proof.
  intros H.
  assert (Hin : ∃ name secs z, positionals argv = Some [name; secs] ∧ py_int secs = Some z
            ∧ camera_start env (now w0) = None ∧ camera_start env (1 + now w0) = None).
  { revert H. unfold bootstrap, parse_args. rewrite bind_eq.
    destruct (positionals argv) as [[|name [|secs [|]]]|]; try done.
    destruct (py_int secs) as [z|] eqn:Hint; [|done]. unfold picam2_call.
    repeat first [rewrite bind_eq | rewrite try_except_eq | progress cbn].
    destruct (camera_start env (now w0)) eqn:Hc1; cbn; [done|].
    repeat first [rewrite bind_eq | rewrite try_except_eq | progress cbn].
    destruct (camera_start env (S (now w0))) eqn:Hc2; cbn; [done|]. intros _.
    by exists name, secs, z. }
  destruct Hin as (name & secs & z & Hpos & Hint & Hc1 & Hc2).
  rewrite (bootstrap_eq argv w0 name secs z Hpos Hint Hc1 Hc2) in H. cbn zeta in H.
  set (ts := strftime_YmdHMS _) in *. set (od := "images/" +:+ name +:+ "_" +:+ ts) in *.
  set (mp := join od "metadata.csv") in *. set (rp := join od "README.md") in *.
  set (wa := {| fs := fs w0; log := _ |}) in *.
  assert (Hlm : String.length od < String.length mp).
  { pose proof (join_length od "metadata.csv" eq_refl). simpl in *. subst mp. lia. }
  assert (Hlr : String.length od < String.length rp).
  { pose proof (join_length od "README.md" eq_refl). simpl in *. subst rp. lia. }
  assert (Hrm : rp ≠ mp) by (intros Heq; by apply join_inj in Heq).
  (* the directory *)
  assert (Hb : ∃ wb, fs wa ⊆ fs wb ∧ fs wb !! mp = fs w0 !! mp ∧ fs wb !! rp = fs w0 !! rp ∧
    log wb = unless_present (fs w0) od [EvMakedirs od] ++ log wa ∧
    (fs w0 !! od = None →
     st_kind <$> fs wb !! od = Some Directory ∧
     ∀ a, a ∈ ancestors od → st_kind <$> fs wb !! a = Some Directory) ∧
    match (match fs wb !! mp with
           | Some _ => (Ok tt, wb)
           | None => write_text env mp ledger_header wb
           end) with
    | (Raise e, w) => (Raise e, w)
    | (Ok _, wc) =>
        match (match fs wc !! rp with
               | Some _ => (Ok tt, wc)
               | None => write_text env rp (readme_text name) wc
               end) with
        | (Raise e, w) => (Raise e, w)
        | (Ok _, wd) =>
            (Ok {| output_dir := od; metadata_path := mp;
                   repo_path := script_dir env; interval := z |},
             {| fs := fs wd;
                log := EvRun ["git"; "checkout";
                              py_strip (stdout (subprocess env (now wd)))]
                         (script_dir env)
                       :: EvRun ["git"; "branch"; "--show-current"] (script_dir env)
                       :: log wd |})
        end
    end = (Ok s, w1)).
  { unfold unless_present. cbn [fs wa] in H. destruct (fs w0 !! od) eqn:Hod.
    - exists wa. by repeat split.
    - destruct (os_makedirs env od wa) as [[[]|e] wb] eqn:Hmk; [|done].
      exists wb. split; [by eapply os_makedirs_keeps_at|].
      split; [by rewrite (os_makedirs_lookup _ _ _ _ _ Hmk Hlm)|].
      split; [by rewrite (os_makedirs_lookup _ _ _ _ _ Hmk Hlr)|].
      split; [by rewrite (os_makedirs_log _ _ _ Hmk)|].
      split; [intros _; exact (os_makedirs_dirs _ _ _ Hmk)|done]. }
  clear H. destruct Hb as (wb & Hab & Hbm & Hbr & Hbl & Hbd & H).
  (* the ledger *)
  assert (Hc : ∃ wc, fs wb ⊆ fs wc ∧ fs wc !! rp = fs w0 !! rp ∧
    log wc = unless_present (fs w0) mp [EvWrite mp ledger_header] ++ log wb ∧
    match (match fs wc !! rp with
           | Some _ => (Ok tt, wc)
           | None => write_text env rp (readme_text name) wc
           end) with
    | (Raise e, w) => (Raise e, w)
    | (Ok _, wd) =>
        (Ok {| output_dir := od; metadata_path := mp;
               repo_path := script_dir env; interval := z |},
         {| fs := fs wd;
            log := EvRun ["git"; "checkout";
                          py_strip (stdout (subprocess env (now wd)))]
                     (script_dir env)
                   :: EvRun ["git"; "branch"; "--show-current"] (script_dir env)
                   :: log wd |})
    end = (Ok s, w1)).
  { unfold unless_present. rewrite <- Hbm. destruct (fs wb !! mp) eqn:Hmp.
    - exists wb. by repeat split.
    - destruct (write_text env mp _ wb) as [[[]|e] wc] eqn:Hw; [|done].
      exists wc. split; [by eapply write_text_absent_keeps|].
      split; [rewrite (write_text_ok _ _ _ _ _ Hw), <- Hbr; by apply lookup_insert_ne|].
      split; [by rewrite (write_text_log _ _ _ _ Hw)|done]. }
  clear H. destruct Hc as (wc & Hbc & Hcr & Hcl & H).
  (* the README *)
  assert (Hd : ∃ wd, fs wc ⊆ fs wd ∧
    log wd = unless_present (fs w0) rp [EvWrite rp (readme_text name)] ++ log wc ∧
    (fs w0 !! rp = None → st_data <$> fs wd !! rp = Some (readme_text name)) ∧
    (Ok {| output_dir := od; metadata_path := mp;
           repo_path := script_dir env; interval := z |},
     {| fs := fs wd;
        log := EvRun ["git"; "checkout"; py_strip (stdout (subprocess env (now wd)))]
                 (script_dir env)
               :: EvRun ["git"; "branch"; "--show-current"] (script_dir env)
               :: log wd |}) = (Ok s, w1)).
  { unfold unless_present. rewrite <- Hcr. destruct (fs wc !! rp) eqn:Hrp.
    - exists wc. by repeat split.
    - destruct (write_text env rp _ wc) as [[[]|e] wd] eqn:Hw; [|done].
      exists wd. split; [by eapply write_text_absent_keeps|].
      split; [by rewrite (write_text_log _ _ _ _ Hw)|]. split; [|done].
      intros _. by rewrite (write_text_ok _ _ _ _ _ Hw), lookup_insert_eq. }
  clear H. destruct Hd as (wd & Hcd & Hdl & Hdr & H). injection H as <- <-.
  exists name, secs, z, wd. repeat split; try done.
  all: fold od; fold mp; fold rp.
  - rewrite Hdl, Hcl, Hbl. done.
  - destruct (Hbd H) as [Hdir _].
    destruct (fs wb !! od) as [i|] eqn:Hi; [|done].
    rewrite (lookup_weaken _ _ _ _ Hi (transitivity Hbc Hcd)). done.
  - intros a Ha. destruct (Hbd H) as [_ Hanc]. specialize (Hanc a Ha).
    destruct (fs wb !! a) as [i|] eqn:Hi; [|done].
    rewrite (lookup_weaken _ _ _ _ Hi (transitivity Hbc Hcd)). done.
Qed.

(** X4.  A bootstrap that returns made its calls in this order: the camera
    is created and started, one timestamp is taken, the output directory
    [images/<name>_<timestamp>] is created unless it exists, the ledger
    header is written unless the ledger exists, the README is written
    unless it exists, git is asked for the current branch, and what it
    printed, stripped, is checked out. *)
Theorem bootstrap_step_order argv w0 s w1 :
  bootstrap env argv w0 = (Ok s, w1) →
  let readme := join (output_dir s) "README.md" in
  ∃ name ts,
    output_dir s = "images/" +:+ name +:+ "_" +:+ ts ∧
    history w1
    = history w0
      ++ [EvCameraStart; EvCameraStart; EvStrftime ts]
      ++ unless_present (fs w0) (output_dir s) [EvMakedirs (output_dir s)]
      ++ unless_present (fs w0) (metadata_path s)
           [EvWrite (metadata_path s) ledger_header]
      ++ unless_present (fs w0) readme [EvWrite readme (readme_text name)]
      ++ [EvRun ["git"; "branch"; "--show-current"] (script_dir env);
          EvRun ["git"; "checkout"; py_strip (stdout (subprocess env (now w1 - 2)))]
            (script_dir env)].
Proof.
  intros (name & secs & z & wd & _ & _ & -> & -> & Hlog & _)%bootstrap_inv readme.
  subst readme. cbn [output_dir metadata_path].
  eexists name, _. split; [done|].
  assert (Ht : ∀ (l : list event) a b, length (a :: b :: l) - 2 = length l)
    by (intros; simpl; lia).
  unfold history. cbn [log]. rewrite Ht.
  generalize (stdout (subprocess env (now wd))). intros out. rewrite Hlog.
  rewrite !reverse_cons, !reverse_app, !reverse_unless_present.
  rewrite <- !app_assoc. done.
Qed.

(** X6.  Bootstrap writes the README only when there is none: an existing
    README is kept as it is, a missing one is created with the text that
    names the experiment. *)
Theorem readme_written_only_when_missing argv name secs w0 s w1 :
  positionals argv = Some [name; secs] →
  bootstrap env argv w0 = (Ok s, w1) →
  let readme := join (output_dir s) "README.md" in
  match fs w0 !! readme with
  | Some i => fs w1 !! readme = Some i
  | None => st_data <$> fs w1 !! readme = Some (readme_text name)
  end.
Proof.
  intros Hpos H readme.
  destruct (fs w0 !! readme) as [i|] eqn:Hr.
  { pose proof (bootstrap_keeps env argv w0) as Hk. rewrite H in Hk.
    by eapply lookup_weaken. }
  apply bootstrap_inv in H as (name' & secs' & z & wd & Hpos' & _ & -> & -> & _ & _ & Hrd).
  rewrite Hpos in Hpos'. injection Hpos' as <- <-. by apply Hrd.
Qed.

(** X5.  When the output directory does not exist, a bootstrap that returns
    has created it together with every missing parent, [images] among
    them: all of them are directories afterwards. *)
Theorem bootstrap_creates_missing_directories argv w0 s w1 :
  bootstrap env argv w0 = (Ok s, w1) →
  fs w0 !! output_dir s = None →
  st_kind <$> fs w1 !! output_dir s = Some Directory ∧
  st_kind <$> fs w1 !! "images" = Some Directory ∧
  ∀ a, a ∈ ancestors (output_dir s) → st_kind <$> fs w1 !! a = Some Directory.
Proof.
  intros (name & secs & z & wd & _ & _ & -> & -> & _ & Hdir & _)%bootstrap_inv Hod.
  cbn [output_dir fs] in *. destruct (Hdir Hod) as [H1 H2].
  split; [done|]. split; [|done]. apply H2, images_ancestor.
Qed.

(** X8.  When git prints the branch name followed by a newline, the last
    two calls of bootstrap are [git branch --show-current] and [git checkout]
    of exactly that name, without the newline. *)
Theorem checkout_follows_reported_branch argv w0 s w1 b :
  (∀ t, stdout (subprocess env t) = b +:+ nl) →
  Forall (λ c, is_space c = false) (list_ascii_of_string b) →
  bootstrap env argv w0 = (Ok s, w1) →
  ∃ earlier,
    history w1
    = history w0 ++ earlier
      ++ [EvRun ["git"; "branch"; "--show-current"] (script_dir env);
          EvRun ["git"; "checkout"; b] (script_dir env)].
Proof.
  intros Hout Hb (name & secs & z & wd & _ & _ & -> & -> & Hlog & _)%bootstrap_inv.
  unfold history. cbn [log]. rewrite Hout, (py_strip_line _ Hb), Hlog.
  rewrite !app_assoc.
  match goal with |- context [?evs ++ log w0] => exists (reverse evs) end.
  by rewrite !reverse_cons, reverse_app, <- !app_assoc.
Qed.

End BootstrapSteps.

(** ** Bootstrap a second time *)

Section Again.
Context (env : Env).

(** What a bootstrap that returns leaves at its three paths. *)
Lemma bootstrap_paths_exist argv w0 s w1 :
  bootstrap env argv w0 = (Ok s, w1) →
  is_Some (fs w1 !! output_dir s) ∧
  is_Some (fs w1 !! metadata_path s) ∧
  is_Some (fs w1 !! join (output_dir s) "README.md").
Proof.
  intros H.
  assert (Hkeep : ∀ q, is_Some (fs w0 !! q) → is_Some (fs w1 !! q)).
  { intros q [i Hq]. exists i. pose proof (bootstrap_keeps env argv w0) as Hk.
    rewrite H in Hk. by eapply lookup_weaken. }
  destruct (bootstrap_ok env _ _ _ _ H) as (_ & _ & _ & _ & _ & _ & _ & _ & Hled).
  destruct (bootstrap_inv env _ _ _ _ H)
    as (name & secs & z & wd & _ & _ & Hs & Hw1 & _ & Hdir & Hrd).
  assert (Hfs : fs w1 = fs wd) by by rewrite Hw1.
  rewrite Hfs in Hled |- *. clear H Hw1. subst s. cbn [output_dir metadata_path] in *.
  split; [|split].
  - destruct (fs w0 !! ("images/" +:+ name +:+ "_" +:+ _)) as [i|] eqn:Hod.
    + rewrite <- Hfs. apply Hkeep. by rewrite Hod.
    + destruct (Hdir eq_refl) as [Hd _]. rewrite <- (fmap_is_Some st_kind). by rewrite Hd.
  - destruct (fs w0 !! join _ "metadata.csv") as [i|]; [by rewrite Hled|].
    rewrite <- (fmap_is_Some st_data). by rewrite Hled.
  - destruct (fs w0 !! join _ "README.md") as [i|] eqn:Hr.
    + rewrite <- Hfs. apply Hkeep. by rewrite Hr.
    + rewrite <- (fmap_is_Some st_data). by rewrite (Hrd eq_refl).
Qed.

(** X23.  Bootstrap is idempotent on the file system: run again on what a
    first bootstrap left, with the clock still in the same second, it finds
    the directory, the ledger and the README in place, creates and writes
    nothing, and returns the same session; its only calls are the camera's,
    the timestamp and the two git commands. *)
Theorem bootstrap_again_changes_nothing argv w0 s w1 :
  bootstrap env argv w0 = (Ok s, w1) →
  camera_start env (now w1) = None →
  camera_start env (1 + now w1) = None →
  clock env (2 + now w1) = clock env (2 + now w0) →
  ∃ w2,
    bootstrap env argv w1 = (Ok s, w2) ∧
    fs w2 = fs w1 ∧
    history w2
    = history w1
      ++ [EvCameraStart; EvCameraStart;
          EvStrftime (strftime_YmdHMS (clock env (2 + now w0)));
          EvRun ["git"; "branch"; "--show-current"] (script_dir env);
          EvRun ["git"; "checkout"; py_strip (stdout (subprocess env (3 + now w1)))]
            (script_dir env)].
Proof.
  intros H Hc1 Hc2 Hclock.
  destruct (bootstrap_paths_exist _ _ _ _ H) as ([i1 H1] & [i2 H2] & [i3 H3]).
  apply bootstrap_inv in H as (name & secs & z & wd & Hpos & Hint & Hs & Hw1 & _).
  rewrite (bootstrap_eq env argv w1 name secs z Hpos Hint Hc1 Hc2). cbn zeta.
  rewrite Hclock. subst s. cbn [output_dir metadata_path] in *.
  cbn [fs]. rewrite H1. cbn [fs]. rewrite H2. cbn [fs]. rewrite H3.
  eexists. split; [done|]. split; [done|].
  unfold history. cbn [log]. by rewrite !reverse_cons, <- !app_assoc.
Qed.

End Again.

(** ** The loop on a host on which nothing fails *)

(** [os.path.dirname] of a path joined to a directory. *)












Section Ready.
Context (s : Session).




End Ready.

Section Progress.
Context (env : Env).




End Progress.

(** ** A first run *)



Section FirstRun.
Context (env : Env).




End FirstRun.

(** ** Timestamps and rotation *)

Lemma digit_inj a b : digit a = digit b → (a mod 10 = b mod 10)%Z.
Proof.
  unfold digit. intros H%(f_equal nat_of_ascii).
  assert (0 ≤ a mod 10 < 10)%Z by (apply Z.mod_pos_bound; lia).
  assert (0 ≤ b mod 10 < 10)%Z by (apply Z.mod_pos_bound; lia).
  rewrite !nat_ascii_embedding in H by lia. lia.
Qed.

Lemma four_digits_inj a b :
  (1000 ≤ a ≤ 9999)%Z → (1000 ≤ b ≤ 9999)%Z →
  ((a / 10 / 10 / 10) mod 10 = (b / 10 / 10 / 10) mod 10)%Z →
  ((a / 10 / 10) mod 10 = (b / 10 / 10) mod 10)%Z →
  ((a / 10) mod 10 = (b / 10) mod 10)%Z →
  (a mod 10 = b mod 10)%Z → a = b.
Proof. intros. Z.to_euclidean_division_equations. lia. Qed.

Lemma two_digits_inj a b :
  (0 ≤ a < 100)%Z → (0 ≤ b < 100)%Z →
  ((a / 10) mod 10 = (b / 10) mod 10)%Z → (a mod 10 = b mod 10)%Z → a = b.
Proof. intros. Z.to_euclidean_division_equations. lia. Qed.

Lemma strftime_inj t1 t2 :
  wf_time t1 → wf_time t2 → strftime_YmdHMS t1 = strftime_YmdHMS t2 → t1 = t2.
Proof.
  intros Hw1 Hw2. rewrite !strftime_shape by done.
  destruct Hw1 as (? & ? & ? & ? & ? & ?), Hw2 as (? & ? & ? & ? & ? & ?).
  intros [= Hy3%digit_inj Hy2%digit_inj Hy1%digit_inj Hy0%digit_inj
            Hm1%digit_inj Hm0%digit_inj Hd1%digit_inj Hd0%digit_inj
            HH1%digit_inj HH0%digit_inj HM1%digit_inj HM0%digit_inj
            HS1%digit_inj HS0%digit_inj].
  destruct t1, t2; simpl in *.
  f_equal; first [by apply four_digits_inj | apply two_digits_inj; first [done|lia]].
Qed.

(** X10.  Image paths are one per second: two well-formed clock readings
    that give the same image path in a directory are the same reading. *)
Theorem image_paths_differ_by_second (d : string) t1 t2 :
  wf_time t1 → wf_time t2 →
  join d (strftime_YmdHMS t1 +:+ ".jpg") = join d (strftime_YmdHMS t2 +:+ ".jpg") →
  t1 = t2.
Proof.
  intros Hw1 Hw2 Heq. apply strftime_inj; [done..|].
  assert (Hs : ∀ t, wf_time t → startswith "/" (strftime_YmdHMS t +:+ ".jpg") = false).
  { intros t Ht. rewrite strftime_shape, app_cons by done. cbn [startswith].
    by rewrite (digit_not_char (digit _) "/") by (by rewrite ?is_digit_digit). }
  apply join_inj in Heq; [|by apply Hs..].
  revert Heq. rewrite !strftime_shape by done.
  rewrite !app_cons, !app_empty_l. by intros [= -> -> -> -> -> -> -> -> -> -> -> -> -> ->].
Qed.

Lemma rotate_fold (f : frame) (w : nat) (acc : list (list Z)) :
  Forall (λ row, length row = w) f → length acc = w →
  length (fold_left (λ acc row, zip_with cons row acc) f acc) = w ∧
  ∀ i a, acc !! i = Some a →
         fold_left (λ acc row, zip_with cons row acc) f acc !! i
         = Some (reverse (column i f) ++ a).
Proof.
  intros Hf. revert acc. induction Hf as [|row f Hrow _ IH]; intros acc Hacc; simpl.
  { split; [done|]. by intros i a ->. }
  destruct (IH (zip_with cons row acc)) as [Hlen Hget].
  { rewrite length_zip_with. lia. }
  split; [done|]. intros i a Ha.
  assert (Hi : i < length row) by (rewrite Hrow, <- Hacc; by eapply lookup_lt_Some).
  destruct (lookup_lt_is_Some_2 row i Hi) as [x Hx].
  rewrite (Hget i (x :: a)).
  2:{ rewrite lookup_zip_with, Hx. cbn. by rewrite Ha. }
  change (column i (row :: f))
    with (match row !! i with Some y => y :: column i f | None => column i f end).
  by rewrite Hx, reverse_cons, <- app_assoc.
Qed.

(** X11.  The rotation is the clockwise quarter turn: a frame of rows of
    width [w] becomes a frame of [w] rows, and row [i] of the result is
    column [i] of the input read from the bottom row up. *)
Theorem rotation_is_clockwise (f : frame) (w i : nat) :
  f ≠ [] → Forall (λ row, length row = w) f → i < w →
  length (rotate_90_clockwise f) = w ∧
  rotate_90_clockwise f !! i = Some (reverse (column i f)).
Proof.
  intros Hne Hf Hi. unfold rotate_90_clockwise.
  assert (Hw : length (hd [] f) = w) by (destruct Hf; [done|done]).
  rewrite Hw. destruct (rotate_fold f w (replicate w []) Hf) as [Hlen Hget].
  { by rewrite length_replicate. }
  split; [exact Hlen|].
  specialize (Hget i [] (proj2 (lookup_replicate _ _ _ _) (conj eq_refl Hi))).
  rewrite app_nil_r in Hget. exact Hget.
Qed.

(** ** A camera that never delivers *)

Section Spin.
Context (env : Env).

Lemma failed_capture_pass s w msg :
  camera_capture env (1 + now w) = CaptureRaises msg →
  loop_body env s w
  = (Ok Continue,
     {| fs := fs w;
        log := [failure_log msg; EvCapture;
                EvStrftime (strftime_YmdHMS (clock env (now w)))] ++ log w |}).
Proof.
  intros Hc. rewrite loop_body_eq. cbn zeta.
  match goal with |- context [capture_and_save env ?p ?w1] =>
    pose proof (capture_and_save_cases env p w1) as Hcs end.
  cbn in Hcs. cbn in Hc. rewrite Hc in Hcs. by rewrite Hcs.
Qed.

(** X22.  With a camera that never delivers a frame the loop spins: every
    pass takes a timestamp, tries the capture and prints the failure, three
    calls and no more, so the loop never sleeps, never touches the file
    system and never counts a pass as completed. *)
Theorem dead_camera_spins_without_sleeping fuel s n w :
  (∀ t, ∃ msg, camera_capture env t = CaptureRaises msg) →
  ∃ w' evs,
    while_true fuel (loop_body env s) n w = (Ok (Running n), w') ∧
    fs w' = fs w ∧
    history w' = history w ++ evs ∧
    length evs = 3 * fuel ∧
    Forall retry_call evs.
Proof.
  intros Hcam. revert w. induction fuel as [|fuel IH]; intros w.
  { exists w, []. by rewrite app_nil_r. }
  destruct (Hcam (1 + now w)) as [msg Hmsg].
  rewrite while_true_S, (failed_capture_pass s w msg Hmsg).
  match goal with |- context [while_true fuel _ n ?w1] =>
    destruct (IH w1) as (w' & evs & -> & Hfs & Hh & Hlen & Hall) end.
  eexists w', (_ :: _ :: _ :: evs). split; [done|]. split; [done|].
  split; [|split].
  - rewrite Hh. unfold history. cbn [log]. rewrite reverse_app. cbn.
    rewrite <- !app_assoc. done.
  - simpl. lia.
  - by repeat constructor.
Qed.

End Spin.

(** * The theorems at work *)

Lemma demo_bootstrap :
  bootstrap demo_env ["trial1"; "5"] empty_world = (Ok demo_session, demo_world).
Proof. vm_compute. reflexivity. Qed.

Lemma capture_loop_step_order_witness :
  loop_body demo_env demo_session demo_world
  = (Ok FallThrough, (loop_body demo_env demo_session demo_world).2) ∧
  ∃ f, camera_capture demo_env (1 + now demo_world) = Captured f.
Proof.
  assert (H : loop_body demo_env demo_session demo_world
              = (Ok FallThrough, (loop_body demo_env demo_session demo_world).2))
    by (vm_compute; reflexivity).
  split; [exact H|].
  destruct (capture_loop_step_order demo_env demo_session demo_world _ H)
    as (f & _ & _ & _ & Hf & _).
  exists f. exact Hf.
Defined.

Lemma local_image_deleted_witness :
  loop_body demo_env demo_session demo_world
  = (Ok FallThrough, (loop_body demo_env demo_session demo_world).2) ∧
  fs (loop_body demo_env demo_session demo_world).2
    !! "images/trial1_20240307-090500/20240307-090500.jpg" = None.
Proof.
  assert (H : loop_body demo_env demo_session demo_world
              = (Ok FallThrough, (loop_body demo_env demo_session demo_world).2))
    by (vm_compute; reflexivity).
  split; [exact H|].
  exact (proj1 (local_image_deleted_whatever_git_returns
                  demo_env demo_session demo_world _ H)).
Defined.

Lemma capture_failure_witness :
  camera_capture flaky_env (1 + now demo_world)
  = CaptureRaises "Camera frontend has timed out!" ∧
  ∃ w', loop_body flaky_env demo_session demo_world = (Ok Continue, w')
        ∧ fs w' = fs demo_world.
Proof.
  assert (H : camera_capture flaky_env (1 + now demo_world)
              = CaptureRaises "Camera frontend has timed out!")
    by (vm_compute; reflexivity).
  split; [exact H|].
  destruct (capture_failure_restarts_pass flaky_env demo_session demo_world _ (or_introl H))
    as (w' & _ & Hrun & Hfs & _).
  exists w'. split; [exact Hrun|exact Hfs].
Defined.

Lemma guard_candidates :
  candidates "out" (dir_entries (fs guard_world) "out")
  = ["out/c.jpg"; "out/a.jpg"; "out/b.jpg"]
  ∧ sorted_paths (fs guard_world) (candidates "out" (dir_entries (fs guard_world) "out"))
    = ["out/b.jpg"; "out/a.jpg"; "out/c.jpg"].
Proof. vm_compute. repeat split. Qed.

(** Usage 85 % against a threshold of 80 %, three images: removing the oldest
    brings usage to 78 %, and only that one is removed. *)
Example disk_guard_stops_after_one :
  let r := manage_disk_usage full_disk_env "out" 80 guard_world in
  r.1 = Ok tt ∧
  history r.2
  = [EvDiskUsage (reading 85);
     EvPrint "Disk usage exceeded threshold. Deleting oldest files...";
     EvRemove "out/b.jpg";
     EvPrint "Deleted out/b.jpg";
     EvDiskUsage (reading 78)] ∧
  (map_to_list (fs r.2)).*1
  = ["out/c.jpg"; "out/metadata.csv"; "out/a.jpg"; "out/README.md"; "out"].
Proof. vm_compute. repeat split. Qed.



(** Usage stays at 85 % and the oldest image cannot be unlinked: the guard
    raises on it, and the next candidate, which could have been unlinked,
    is still there. *)
Lemma disk_guard_deletion_failure_is_fatal :
  let r := manage_disk_usage locked_env "out" 80 guard_world in
  r.1 = Raise (PermissionError "out/b.jpg") ∧
  history r.2
  = [EvDiskUsage (reading 85);
     EvPrint "Disk usage exceeded threshold. Deleting oldest files...";
     EvRemove "out/b.jpg"] ∧
  fs r.2 = fs guard_world ∧
  unlink_error (unlink_denied locked_env) (fs r.2) "out/a.jpg" = None ∧
  exceeds (percent (disk locked_env (now r.2))) 80 = true.
Proof.
  cbv zeta. split; [vm_compute; reflexivity|].
  split; [vm_compute; reflexivity|].
  split; [vm_cast_no_check (eq_refl (fs guard_world))|].
  split; vm_compute; reflexivity.
Qed.

Lemma disk_guard_deletion_failure_witness :
  unlink_error (unlink_denied locked_env) (fs guard_world) "out/b.jpg"
  = Some (PermissionError "out/b.jpg") ∧
  (manage_disk_usage locked_env "out" 80 guard_world).1
  = Raise (PermissionError "out/b.jpg").
Proof.
  assert (He : unlink_error (unlink_denied locked_env) (fs guard_world) "out/b.jpg"
               = Some (PermissionError "out/b.jpg")) by (vm_compute; reflexivity).
  split; [exact He|].
  destruct (disk_guard_deletion_failure_propagates locked_env "out" 80 guard_world
              "out/b.jpg" ["out/a.jpg"; "out/c.jpg"] (PermissionError "out/b.jpg"))
    as [Hrun _].
  - vm_compute. discriminate.
  - vm_compute. reflexivity.
  - vm_compute. reflexivity.
  - exact (proj2 guard_candidates).
  - exact He.
  - exact (f_equal fst Hrun).
Defined.

(** The camera fails on its first frame and works on the second: no ledger
    line and no sleep for the failed pass, one line after the next. *)
Example capture_retry_scenario :
  let r := while_true 2 (loop_body flaky_env demo_session) 0 demo_world in
  r.1 = Ok (Running 1) ∧
  drop (now demo_world) (history r.2)
  = [EvStrftime "20240307-090500";
     EvCapture;
     EvPrint "Failed to capture or save image: Camera frontend has timed out!";
     EvStrftime "20240307-090500";
     EvCapture;
     EvRotate;
     EvImwrite "images/trial1_20240307-090500/20240307-090500.jpg" [[3; 1]; [4; 2]]%Z;
     EvAppend "images/trial1_20240307-090500/metadata.csv"
       ("20240307-090500,images/trial1_20240307-090500/20240307-090500.jpg" +:+ nl);
     EvRun ["git"; "add"; "images/trial1_20240307-090500/20240307-090500.jpg";
            "images/trial1_20240307-090500/metadata.csv"] "/home/pi/Images_FW02";
     EvRun ["git"; "commit"; "-m"; "Add image and metadata for 20240307-090500"]
       "/home/pi/Images_FW02";
     EvRun ["git"; "push"] "/home/pi/Images_FW02";
     EvPrint "Captured and uploaded image at 20240307-090500";
     EvRemove "images/trial1_20240307-090500/20240307-090500.jpg";
     EvPrint ("Deleted local image at "
              +:+ "images/trial1_20240307-090500/20240307-090500.jpg");
     EvDiskUsage (reading 50);
     EvSleep 5] ∧
  st_data <$> fs r.2 !! metadata_path demo_session
  = Some (ledger_header
          +:+ "20240307-090500,images/trial1_20240307-090500/20240307-090500.jpg"
          +:+ nl).
Proof. vm_compute. repeat split. Qed.






Lemma demo_session_ok : session_ok demo_session.
Proof. vm_compute. reflexivity. Qed.

Lemma wrong_argument_count_witness :
  Forall (λ a, plain_token a = true) ["trial1"] ∧
  main demo_env 3 ["trial1"] empty_world = (Raise ArgparseExit, empty_world).
Proof.
  assert (H : Forall (λ a, plain_token a = true) ["trial1"])
    by (constructor; [vm_compute; reflexivity|constructor]).
  split; [exact H|].
  apply (wrong_argument_count_rejected demo_env 3 ["trial1"] empty_world H).
  simpl. lia.
Defined.

Lemma non_integer_interval_witness :
  existsb not_in_int_literal (list_ascii_of_string "1.5") = true ∧
  main demo_env 3 ["trial1"; "1.5"] empty_world = (Raise ArgparseExit, empty_world).
Proof.
  assert (H : existsb not_in_int_literal (list_ascii_of_string "1.5") = true)
    by (vm_compute; reflexivity).
  split; [exact H|].
  exact (non_integer_interval_rejected demo_env 3 "trial1" "1.5" empty_world H).
Defined.

Lemma camera_init_failure_witness :
  camera_start no_camera_env (now empty_world) = Some "Camera not found" ∧
  ∃ w', main no_camera_env 3 ["trial1"; "5"] empty_world = (Raise (SystemExit 1), w')
        ∧ fs w' = fs empty_world.
Proof.
  assert (H : camera_start no_camera_env (now empty_world) = Some "Camera not found")
    by reflexivity.
  split; [exact H|].
  destruct (camera_init_failure_exits no_camera_env 3 ["trial1"; "5"] "trial1" "5" 5
              "Camera not found" empty_world) as (w' & starts & Hrun & Hfs & _).
  - vm_compute. reflexivity.
  - vm_compute. reflexivity.
  - left. exact H.
  - exists w'. split; [exact Hrun|exact Hfs].
Defined.

Lemma bootstrap_step_order_witness :
  bootstrap demo_env ["trial1"; "5"] empty_world = (Ok demo_session, demo_world) ∧
  ∃ name ts, output_dir demo_session = "images/" +:+ name +:+ "_" +:+ ts.
Proof.
  split; [exact demo_bootstrap|].
  destruct (bootstrap_step_order demo_env ["trial1"; "5"] empty_world demo_session
              demo_world demo_bootstrap) as (name & ts & Hod & _).
  exists name, ts. exact Hod.
Defined.

Lemma bootstrap_creates_directories_witness :
  fs empty_world !! output_dir demo_session = None ∧
  st_kind <$> fs demo_world !! "images" = Some Directory.
Proof.
  assert (H : fs empty_world !! output_dir demo_session = None) by reflexivity.
  split; [exact H|].
  exact (proj1 (proj2 (bootstrap_creates_missing_directories demo_env ["trial1"; "5"]
                         empty_world demo_session demo_world demo_bootstrap H))).
Defined.

Lemma readme_written_witness :
  positionals ["trial1"; "5"] = Some ["trial1"; "5"] ∧
  st_data <$> fs demo_world !! join (output_dir demo_session) "README.md"
  = Some (readme_text "trial1").
Proof.
  assert (H : positionals ["trial1"; "5"] = Some ["trial1"; "5"])
    by (vm_compute; reflexivity).
  split; [exact H|].
  exact (readme_written_only_when_missing demo_env ["trial1"; "5"] "trial1" "5"
           empty_world demo_session demo_world H demo_bootstrap).
Defined.

Lemma bootstrap_keeps_entries_witness :
  fs guard_world !! "out/a.jpg" = Some (file_node 20 "A") ∧
  fs (bootstrap demo_env ["trial1"; "5"] guard_world).2 !! "out/a.jpg"
  = Some (file_node 20 "A").
Proof.
  assert (H : fs guard_world !! "out/a.jpg" = Some (file_node 20 "A"))
    by (vm_compute; reflexivity).
  split; [exact H|].
  exact (bootstrap_keeps_existing_entries demo_env ["trial1"; "5"] guard_world _ _ H).
Defined.

Lemma checkout_follows_branch_witness :
  (∀ t, stdout (subprocess demo_env t) = "main" +:+ nl) ∧
  ∃ earlier,
    history demo_world
    = history empty_world ++ earlier
      ++ [EvRun ["git"; "branch"; "--show-current"] (script_dir demo_env);
          EvRun ["git"; "checkout"; "main"] (script_dir demo_env)].
Proof.
  assert (H : ∀ t, stdout (subprocess demo_env t) = "main" +:+ nl)
    by (intros t; reflexivity).
  split; [exact H|].
  apply (checkout_follows_reported_branch demo_env ["trial1"; "5"] empty_world
           demo_session demo_world "main" H); [|exact demo_bootstrap].
  repeat constructor.
Defined.

Lemma image_paths_differ_witness :
  wf_time demo_time ∧ demo_time = demo_time.
Proof.
  assert (H : wf_time demo_time) by (unfold wf_time; cbn; lia).
  split; [exact H|].
  exact (image_paths_differ_by_second "out" demo_time demo_time H H eq_refl).
Defined.

Lemma rotation_is_clockwise_witness :
  Forall (λ row : list Z, length row = 2) demo_frame ∧
  rotate_90_clockwise demo_frame !! 0 = Some [3; 1]%Z.
Proof.
  assert (H : Forall (λ row : list Z, length row = 2) demo_frame)
    by (repeat constructor).
  split; [exact H|].
  refine (proj2 (rotation_is_clockwise demo_frame 2 0 _ H _)); [discriminate|lia].
Defined.

Lemma unwritten_image_witness :
  cv2_encode silent_encoder_env (3 + now demo_world) = ImwriteFalse ∧
  ∃ w', loop_body silent_encoder_env demo_session demo_world
        = (Raise (FileNotFoundError
                    (join (output_dir demo_session)
                       (strftime_YmdHMS (clock silent_encoder_env (now demo_world))
                        +:+ ".jpg"))), w').
Proof.
  assert (H : cv2_encode silent_encoder_env (3 + now demo_world) = ImwriteFalse)
    by reflexivity.
  split; [exact H|].
  destruct (unwritten_image_is_fatal silent_encoder_env demo_session demo_world demo_frame)
    as (w' & Hrun & _).
  - exact demo_session_ok.
  - reflexivity.
  - left. exact H.
  - vm_compute. reflexivity.
  - vm_compute. reflexivity.
  - exists w'. exact Hrun.
Defined.

Lemma unwritable_ledger_witness :
  open_error (fs ledger_dir_world)
    (join (output_dir demo_session)
       (strftime_YmdHMS (clock demo_env (now ledger_dir_world)) +:+ ".jpg")) = None ∧
  ∃ w', loop_body demo_env demo_session ledger_dir_world
        = (Raise (IsADirectoryError (metadata_path demo_session)), w').
Proof.
  assert (H : open_error (fs ledger_dir_world)
                (join (output_dir demo_session)
                   (strftime_YmdHMS (clock demo_env (now ledger_dir_world)) +:+ ".jpg"))
              = None) by (vm_compute; reflexivity).
  split; [exact H|].
  destruct (unwritable_ledger_is_fatal demo_env demo_session ledger_dir_world demo_frame
              (IsADirectoryError (metadata_path demo_session))) as (w' & Hrun & _).
  - reflexivity.
  - reflexivity.
  - exact H.
  - vm_compute. reflexivity.
  - exists w'. exact Hrun.
Defined.

Lemma loop_confined_witness :
  session_ok demo_session ∧
  fs (while_true 2 (loop_body demo_env demo_session) 0 demo_world).2
    !! join (output_dir demo_session) "README.md"
  = fs demo_world !! join (output_dir demo_session) "README.md".
Proof.
  split; [exact demo_session_ok|].
  exact (proj2 (loop_confined_to_output_dir demo_env 2 demo_session 0 demo_world
                  demo_session_ok)).
Defined.

Lemma ledger_only_grows_witness :
  session_ok demo_session ∧
  ∃ added,
    ledger_text demo_session
      (while_true 2 (loop_body flaky_env demo_session) 0 demo_world).2
    = ledger_text demo_session demo_world +:+ added.
Proof.
  split; [exact demo_session_ok|].
  exact (proj1 (ledger_only_grows flaky_env 2 demo_session 0 demo_world demo_session_ok)).
Defined.

Lemma disk_guard_zero_total_witness :
  total (disk unsized_disk_env (now guard_world)) = 0%Z ∧
  (manage_disk_usage unsized_disk_env "out" 80 guard_world).1 = Raise ZeroDivisionError.
Proof.
  assert (H : total (disk unsized_disk_env (now guard_world)) = 0%Z) by reflexivity.
  split; [exact H|].
  exact (f_equal fst (proj1 (disk_guard_zero_total_raises unsized_disk_env "out" 80
                                guard_world H))).
Defined.

Lemma disk_guard_needs_directory_witness :
  st_kind <$> fs guard_world !! "elsewhere" ≠ Some Directory ∧
  ∃ e, (manage_disk_usage locked_env "elsewhere" 80 guard_world).1 = Raise e.
Proof.
  assert (H : st_kind <$> fs guard_world !! "elsewhere" ≠ Some Directory)
    by (vm_compute; discriminate).
  split; [exact H|].
  eexists.
  refine (f_equal fst (disk_guard_needs_directory locked_env "elsewhere" 80 guard_world
                         _ _ H)).
  - vm_compute. discriminate.
  - vm_compute. reflexivity.
Defined.




Lemma dead_camera_witness :
  (∀ t, ∃ msg, camera_capture stuck_camera_env t = CaptureRaises msg) ∧
  ∃ w', while_true 4 (loop_body stuck_camera_env demo_session) 7 demo_world
        = (Ok (Running 7), w') ∧ fs w' = fs demo_world.
Proof.
  assert (H : ∀ t, ∃ msg, camera_capture stuck_camera_env t = CaptureRaises msg)
    by (intros t; eexists; reflexivity).
  split; [exact H|].
  destruct (dead_camera_spins_without_sleeping stuck_camera_env 4 demo_session 7
              demo_world H) as (w' & evs & Hrun & Hfs & _).
  exists w'. split; [exact Hrun|exact Hfs].
Defined.

Lemma bootstrap_again_witness :
  bootstrap demo_env ["trial1"; "5"] empty_world = (Ok demo_session, demo_world) ∧
  ∃ w2, bootstrap demo_env ["trial1"; "5"] demo_world = (Ok demo_session, w2)
        ∧ fs w2 = fs demo_world.
Proof.
  split; [exact demo_bootstrap|].
  destruct (bootstrap_again_changes_nothing demo_env ["trial1"; "5"] empty_world
              demo_session demo_world demo_bootstrap) as (w2 & Hrun & Hfs & _).
  - reflexivity.
  - reflexivity.
  - reflexivity.
  - exists w2. split; [exact Hrun|exact Hfs].
Defined.
